(** * metalsmith-permalinks: a shallow embedding of [lib/index.js]

    The plugin renames the documents of a Metalsmith build so that
    [about.html] becomes [about/index.html], copies the assets that sit
    next to a document, and relinks the document's contents.

    The development follows the source file top to bottom:
    - JavaScript strings, Node's POSIX [path] functions and
      [String.prototype.replace] with a string pattern;
    - JavaScript objects as ordered association lists, documents as
      objects stored in a heap and referred to by reference;
    - [relink], [normalize], [family], [folder], [resolve], [replace],
      [params], [html] and [plugin] with its transform;
    - the properties of the plugin, one theorem per claim. *)

From Stdlib Require Import String Ascii List ZArith Lia Bool DecimalString.
From stdpp Require Import base list strings.
Import ListNotations.
Local Open Scope string_scope.
Local Open Scope list_scope.

(** ** JavaScript strings *)

Module Js.

Definition slash : ascii := "/"%char.
Definition dot : ascii := "."%char.
Definition backslash : ascii := "\"%char.

Definition chars : string -> list ascii := list_ascii_of_string.
Definition str : list ascii -> string := string_of_list_ascii.

(** [s.endsWith(p)], the test of an expression such as [/html$/]. *)
Definition ends_with (s p : string) : bool :=
  String.prefix (str (rev (chars p))) (str (rev (chars s))).

(** [hay.indexOf(needle)] from position [i] on, [None] for [-1]. *)
Fixpoint index_from (i : nat) (needle hay : string) : option nat :=
  if String.prefix needle hay then Some i
  else match hay with
       | EmptyString => None
       | String _ rest => index_from (S i) needle rest
       end.

Definition indexOf (hay needle : string) : Z :=
  match index_from 0 needle hay with
  | Some i => Z.of_nat i
  | None => (-1)%Z
  end.

(** [s.slice(n)] for [0 <= n]. *)
Fixpoint slice_from (n : nat) (s : string) : string :=
  match n, s with
  | O, _ => s
  | S n', EmptyString => EmptyString
  | S n', String _ rest => slice_from n' rest
  end.

(** [s.slice(0, n)]. *)
Fixpoint slice_to (n : nat) (s : string) : string :=
  match n, s with
  | O, _ => EmptyString
  | S n', EmptyString => EmptyString
  | S n', String a rest => String a (slice_to n' rest)
  end.

(** Decimal numerals, as [String(n)] prints an integer. *)
Definition of_nat (n : nat) : string := NilZero.string_of_uint (Nat.to_uint n).
Definition of_Z (z : Z) : string := NilZero.string_of_int (Z.to_int z).

(** [s.replace(/\\/g, '/')]. *)
Fixpoint unbackslash (s : string) : string :=
  match s with
  | EmptyString => EmptyString
  | String a rest =>
      String (if Ascii.eqb a backslash then slash else a) (unbackslash rest)
  end.

(** The replacement text of [String.prototype.replace] when the pattern
    is a string (ECMAScript GetSubstitution with no captures): [$$] is a
    dollar, [$&] the matched text, [$`] the text before the match, [$']
    the text after it; any other dollar stands for itself. *)
Fixpoint get_substitution (matched before after repl : string) : string :=
  match repl with
  | EmptyString => EmptyString
  | String a rest =>
      if Ascii.eqb a "$"%char then
        match rest with
        | String b rest' =>
            if Ascii.eqb b "$"%char then
              "$" +:+ get_substitution matched before after rest'
            else if Ascii.eqb b "&"%char then
              matched +:+ get_substitution matched before after rest'
            else if Ascii.eqb b "`"%char then
              before +:+ get_substitution matched before after rest'
            else if Ascii.eqb b "'"%char then
              after +:+ get_substitution matched before after rest'
            else String a (get_substitution matched before after rest)
        | EmptyString => String a EmptyString
        end
      else String a (get_substitution matched before after rest)
  end.

(** [content.replace(pattern, replacement)] with a string [pattern]:
    only the first occurrence is replaced. *)
Definition replace (content pattern replacement : string) : string :=
  match index_from 0 pattern content with
  | None => content
  | Some i =>
      let before := slice_to i content in
      let after := slice_from (i + String.length pattern) content in
      before +:+ get_substitution pattern before after replacement +:+ after
  end.

End Js.

(** ** Node's [path] module, POSIX flavour *)

Module Path.

Import Js.

Definition is_slash (a : ascii) : bool := Ascii.eqb a slash.

Fixpoint drop_while (p : ascii -> bool) (l : list ascii) : list ascii :=
  match l with
  | a :: l' => if p a then drop_while p l' else l
  | [] => []
  end.

Fixpoint take_while (p : ascii -> bool) (l : list ascii) : list ascii :=
  match l with
  | a :: l' => if p a then a :: take_while p l' else []
  | [] => []
  end.

Definition not_slash (a : ascii) : bool := negb (is_slash a).

(** The last component of a path, trailing slashes dropped. *)
Definition last_component (path : string) : string :=
  str (rev (take_while not_slash (drop_while is_slash (rev (chars path))))).

(** The trailing slashes of a path. *)
Definition trailing_slashes (path : string) : string :=
  str (take_while is_slash (rev (chars path))).

(** [path.dirname]. The scan runs from the last character down to index
    1: trailing slashes are skipped, then the component, and the slash
    before the component ends the result. *)
Definition dirname (path : string) : string :=
  match chars path with
  | [] => "."
  | c0 :: rest =>
      let hasRoot := is_slash c0 in
      match drop_while not_slash (drop_while is_slash (rev rest)) with
      | [] => if hasRoot then "/" else "."
      | _ :: before =>
          if hasRoot && (length before =? 0)%nat then "//"
          else str (c0 :: rev before)
      end
  end.

(** [path.extname]: from the last dot of the last component on, unless
    that dot opens the component or the component is [..]. *)
Fixpoint last_dot (l : list ascii) (i : nat) (found : option nat) : option nat :=
  match l with
  | [] => found
  | a :: l' => last_dot l' (S i) (if Ascii.eqb a dot then Some i else found)
  end.

Definition extname (path : string) : string :=
  let comp := last_component path in
  match last_dot (chars comp) 0 None with
  | None => ""
  | Some O => ""
  | Some i => if String.eqb comp ".." then "" else slice_from i comp
  end.

(** [path.basename(path, suffix)]. *)
Definition basename (path suffix : string) : string :=
  let comp := last_component path in
  if (String.length suffix =? 0)%nat
     || (String.length path <? String.length suffix)%nat then comp
  else if String.eqb suffix path then ""
  else if (String.length comp =? 0)%nat then path
  else if ends_with comp suffix then
    if (String.length comp =? String.length suffix)%nat then comp
    else slice_to (String.length comp - String.length suffix) comp
  else if ends_with suffix comp then comp +:+ trailing_slashes path
  else comp.

(** The segments of a path between slashes. *)
Fixpoint segments (s : string) : list string :=
  match s with
  | EmptyString => [EmptyString]
  | String a rest =>
      if is_slash a then EmptyString :: segments rest
      else match segments rest with
           | w :: ws => String a w :: ws
           | [] => [String a EmptyString]
           end
  end.

(** One segment of [normalizeString]; [res] is the stack of kept
    segments, last one first. *)
Definition normalize_step (allowAboveRoot : bool) (res : list string)
    (seg : string) : list string :=
  if String.eqb seg "" || String.eqb seg "." then res
  else if String.eqb seg ".." then
    match res with
    | top :: below =>
        if String.eqb top ".." then
          if allowAboveRoot then ".." :: res else res
        else below
    | [] => if allowAboveRoot then [".."] else []
    end
  else seg :: res.

Definition normalizeString (path : string) (allowAboveRoot : bool) : string :=
  String.concat "/"
    (rev (fold_left (normalize_step allowAboveRoot) (segments path) [])).

Definition first_is_slash (s : string) : bool :=
  match s with String a _ => is_slash a | EmptyString => false end.

Definition last_is_slash (s : string) : bool :=
  match rev (chars s) with a :: _ => is_slash a | [] => false end.

(** [path.normalize]. *)
Definition normalize (path : string) : string :=
  if (String.length path =? 0)%nat then "."
  else
    let isAbsolute := first_is_slash path in
    let trailingSeparator := last_is_slash path in
    let p := normalizeString path (negb isAbsolute) in
    if (String.length p =? 0)%nat then
      if isAbsolute then "/" else if trailingSeparator then "./" else "."
    else
      let p := if trailingSeparator then p +:+ "/" else p in
      if isAbsolute then "/" +:+ p else p.

(** [path.join(...args)] on strings: the non-empty arguments joined by a
    slash, then normalized. The variant [path.posix.join] is the same
    function. *)
Definition join (args : list string) : string :=
  match List.filter (fun a => negb (String.length a =? 0)%nat) args with
  | [] => "."
  | parts => normalize (String.concat "/" parts)
  end.

End Path.

(** ** JavaScript objects

    An object is the list of its own properties in enumeration order:
    array-index keys first, in ascending order, then the other keys in
    the order they were added. [for ... in] and [Object.keys] follow
    that order, so it is kept. *)

Module Obj.

Definition t (A : Type) : Type := list (string * A).

Definition digit (a : ascii) : option N :=
  let n := N_of_ascii a in
  if ((48 <=? n) && (n <=? 57))%N then Some (n - 48)%N else None.

Fixpoint digits (acc : N) (l : list ascii) : option N :=
  match l with
  | [] => Some acc
  | a :: l' =>
      match digit a with
      | Some d => digits (acc * 10 + d)%N l'
      | None => None
      end
  end.

(** A key is an array index when it is the canonical numeral of an
    integer below [2^32 - 1]. *)
Definition array_index (k : string) : option N :=
  match Js.chars k with
  | [] => None
  | [a] => digit a
  | a :: l =>
      if Ascii.eqb a "0"%char || (10 <? length (a :: l))%nat then None
      else match digits 0 (a :: l) with
           | Some n => if (n <? 4294967295)%N then Some n else None
           | None => None
           end
  end.

Section Operations.
Context {A : Type}.

(** [o[k]], [None] for [undefined]. *)
Fixpoint get (k : string) (o : t A) : option A :=
  match o with
  | [] => None
  | (k', v) :: o' => if String.eqb k' k then Some v else get k o'
  end.

(** [k in o] for an own property. *)
Definition has (k : string) (o : t A) : bool :=
  match get k o with Some _ => true | None => false end.

Fixpoint update (k : string) (v : A) (o : t A) : t A :=
  match o with
  | [] => []
  | (k', v') :: o' =>
      if String.eqb k' k then (k', v) :: o' else (k', v') :: update k v o'
  end.

Fixpoint insert_index (n : N) (k : string) (v : A) (o : t A) : t A :=
  match o with
  | [] => [(k, v)]
  | (k', v') :: o' =>
      match array_index k' with
      | Some n' =>
          if (n' <? n)%N then (k', v') :: insert_index n k v o'
          else (k, v) :: o
      | None => (k, v) :: o
      end
  end.

(** [o[k] = v]: an existing property keeps its place. *)
Definition set (k : string) (v : A) (o : t A) : t A :=
  if has k o then update k v o
  else match array_index k with
       | Some n => insert_index n k v o
       | None => o ++ [(k, v)]
       end.

(** [delete o[k]]. *)
Definition delete (k : string) (o : t A) : t A :=
  List.filter (fun kv => negb (String.eqb (fst kv) k)) o.

(** [Object.keys(o)]. *)
Definition keys (o : t A) : list string := map fst o.

End Operations.

(** [Object.assign(target, source)]. *)
Definition assign {A : Type} (target source : t A) : t A :=
  fold_left (fun acc kv => set (fst kv) (snd kv) acc) source target.

End Obj.

(** ** Values, documents and the heap *)

#[local] Set Warnings "-register-all".

(** The values a metadata field can hold. Numbers are the integral
    ones and [NaN]; a [Date] is its time value and a [Buffer] the text
    it decodes to. *)
Inductive value : Type :=
| VUndefined
| VNull
| VBool (b : bool)
| VNumber (n : Z)
| VNaN
| VString (s : string)
| VDate (t : Z)
| VBuffer (s : string)
| VArray (l : list value)
| VObject (o : list (string * value)).

(** A document is an object; the documents live in a heap and [files],
    [dupes] and the families hold references into it. *)
Definition Doc : Type := Obj.t value.
Definition ref : Type := nat.

(** [!v] is [negb (truthy v)]. *)
Definition truthy (v : value) : bool :=
  match v with
  | VUndefined | VNull | VNaN => false
  | VBool b => b
  | VNumber n => negb (n =? 0)%Z
  | VString s => negb (String.length s =? 0)%nat
  | VDate _ | VBuffer _ | VArray _ | VObject _ => true
  end.

(** [typeof v === 'object' && v !== null]. *)
Definition is_object (v : value) : bool :=
  match v with
  | VDate _ | VBuffer _ | VArray _ | VObject _ => true
  | _ => false
  end.

(** [d[k]]: a missing property reads as [undefined]. *)
Definition prop (k : string) (d : Doc) : value :=
  match Obj.get k d with Some v => v | None => VUndefined end.

(** A regular expression is known by its [test] on a string. *)
Record RegExp : Type := { test : string -> bool }.

(** The libraries and the host, which are not part of the repository:
    - [slugify text options] of the slugify package, under the character
      map extensions registered so far with [slugify.extend];
    - [moment(date).utc().format(string)];
    - [Date.prototype.toString];
    - [new RegExp(source)];
    - the value the host's [done] callback returns. *)
Record Externals : Type := {
  slugify : list value -> string -> Obj.t value -> string;
  moment_utc_format : string -> Z -> string;
  date_toString : Z -> string;
  new_RegExp : string -> RegExp;
  done_result : value
}.

Section Values.
Variable E : Externals.

(** [String(v)], the conversion behind template literals, [toString()],
    [RegExp.prototype.test] and property keys. *)
Fixpoint to_string (v : value) : string :=
  match v with
  | VUndefined => "undefined"
  | VNull => "null"
  | VBool true => "true"
  | VBool false => "false"
  | VNumber n => Js.of_Z n
  | VNaN => "NaN"
  | VString s => s
  | VDate t => date_toString E t
  | VBuffer s => s
  | VArray l =>
      String.concat ","
        (map (fun x => match x with
                       | VUndefined | VNull => ""
                       | _ => to_string x
                       end) l)
  | VObject _ => "[object Object]"
  end.

End Values.

(** ** Options and linksets *)

(** [options.slug]: absent, an options object for slugify, or a
    function. *)
Inductive slug_setting : Type :=
| SlugDefault
| SlugOptions (o : Obj.t value)
| SlugFunction (f : string -> string).

(** [options.date]: absent (or neither string nor function), a format
    string, or a function. *)
Inductive date_setting : Type :=
| DateAbsent
| DateFormat (fmt : string)
| DateFunction (f : Z -> string).

(** [options.unique]: falsy, truthy, or a resolver called with the
    target path, the files and the file name. *)
Inductive unique_setting : Type :=
| UniqueOff
| UniqueOn
| UniqueFunction (f : value -> Obj.t ref -> string -> value).

(** A value of [ls.match]: a string, compiled when the plugin is
    configured, or a regular expression. *)
Inductive matcher : Type :=
| MString (source : string)
| MRegExp (re : RegExp).

Record linkset : Type := {
  ls_pattern : option string;
  ls_match : Obj.t matcher;
  ls_relative : value;
  ls_isDefault : bool;
  ls_slug : slug_setting;
  ls_date : date_setting
}.

(** The options object; [relative] is [None] when the object has no
    property of that name of its own. *)
Record options : Type := {
  pattern : option string;
  date : date_setting;
  relative : option value;
  linksets : list linkset;
  indexFile : option string;
  unique : unique_setting;
  duplicatesFail : bool;
  slug : slug_setting;
  customSlug : option (Doc -> value);
  fileFilter : option RegExp;
  ignoreFilter : option RegExp
}.

(** The argument of [plugin]: a pattern string, nothing, or an options
    object. *)
Inductive options_arg : Type :=
| OptionsString (s : string)
| OptionsNone
| OptionsObject (o : options).

Definition empty_options : options :=
  {| pattern := None; date := DateAbsent; relative := None; linksets := [];
     indexFile := None; unique := UniqueOff; duplicatesFail := false;
     slug := SlugDefault; customSlug := None;
     fileFilter := None; ignoreFilter := None |}.

Definition with_pattern (p : string) (o : options) : options :=
  {| pattern := Some p; date := date o; relative := relative o;
     linksets := linksets o; indexFile := indexFile o; unique := unique o;
     duplicatesFail := duplicatesFail o; slug := slug o;
     customSlug := customSlug o; fileFilter := fileFilter o;
     ignoreFilter := ignoreFilter o |}.

Section Normalize.
Variable E : Externals.

(** [format(string)]. *)
Definition format (fmt : string) : Z -> string :=
  fun date => moment_utc_format E fmt date.

(** [normalize(options)]. *)
Definition normalize (arg : options_arg) : options :=
  let o := match arg with
           | OptionsString s => with_pattern s empty_options
           | OptionsNone => empty_options
           | OptionsObject o => o
           end in
  {| pattern := pattern o;
     date := match date o with
             | DateFormat s => DateFunction (format s)
             | _ => DateFunction (format "YYYY/MM/DD")
             end;
     relative := match relative o with
                 | Some v => Some v
                 | None => Some (VBool true)
                 end;
     linksets := linksets o;
     indexFile := indexFile o; unique := unique o;
     duplicatesFail := duplicatesFail o; slug := slug o;
     customSlug := customSlug o; fileFilter := fileFilter o;
     ignoreFilter := ignoreFilter o |}.

(** Reading [options.relative]. *)
Definition relative_value (o : options) : value :=
  match relative o with Some v => v | None => VUndefined end.

(** The options object where the code uses it as a linkset. *)
Definition options_linkset (o : options) : linkset :=
  {| ls_pattern := pattern o; ls_match := []; ls_relative := relative_value o;
     ls_isDefault := false; ls_slug := slug o; ls_date := date o |}.

(** The [forEach] at the head of [plugin]: string matchers become
    regular expressions. *)
Definition compile_matcher (m : matcher) : matcher :=
  match m with
  | MString s => MRegExp (new_RegExp E s)
  | MRegExp re => MRegExp re
  end.

Definition compile_linkset (ls : linkset) : linkset :=
  {| ls_pattern := ls_pattern ls;
     ls_match := map (fun km => (fst km, compile_matcher (snd km))) (ls_match ls);
     ls_relative := ls_relative ls; ls_isDefault := ls_isDefault ls;
     ls_slug := ls_slug ls; ls_date := ls_date ls |}.

End Normalize.

(** ** State and control

    The transform works on the heap of documents, on the [files] object
    it is given and on the [dupes] object of the plugin's closure; it
    calls [done] and schedules it with [setImmediate]; [slugify.extend]
    changes the character map of the slugify module. An exception ends
    the call and leaves the state as it was when thrown. *)

Inductive done_call : Type :=
| DoneOk
| DoneError (message : string).

Record state : Type := {
  heap : list Doc;
  files : Obj.t ref;
  dupes : Obj.t ref;
  done_calls : list done_call;
  immediates : nat;
  charmap : list value
}.

Inductive exn : Type :=
| TypeError (what : string)
| Diverges.

Inductive result (A : Type) : Type :=
| Val (a : A)
| Exc (e : exn).
Arguments Val {A} a.
Arguments Exc {A} e.

Definition M (A : Type) : Type := state -> result A * state.

Definition pure {A : Type} (a : A) : M A := fun s => (Val a, s).

Definition throw {A : Type} (e : exn) : M A := fun s => (Exc e, s).

Definition bind {A B : Type} (m : M A) (f : A -> M B) : M B :=
  fun s => match m s with
           | (Val a, s') => f a s'
           | (Exc e, s') => (Exc e, s')
           end.

Notation "'let*' x ':=' m 'in' k" := (bind m (fun x => k))
  (at level 10, x name, m at level 100, k at level 200).
Notation "'do' m 'then' k" := (bind m (fun _ => k))
  (at level 10, m at level 100, k at level 200).

Definition gets {A : Type} (f : state -> A) : M A := fun s => (Val (f s), s).

Definition modify (f : state -> state) : M unit := fun s => (Val tt, f s).

Definition set_heap (h : list Doc) (s : state) : state :=
  {| heap := h; files := files s; dupes := dupes s;
     done_calls := done_calls s; immediates := immediates s;
     charmap := charmap s |}.

Definition set_files (f : Obj.t ref) (s : state) : state :=
  {| heap := heap s; files := f; dupes := dupes s;
     done_calls := done_calls s; immediates := immediates s;
     charmap := charmap s |}.

Definition set_dupes (d : Obj.t ref) (s : state) : state :=
  {| heap := heap s; files := files s; dupes := d;
     done_calls := done_calls s; immediates := immediates s;
     charmap := charmap s |}.

Definition set_done_calls (c : list done_call) (s : state) : state :=
  {| heap := heap s; files := files s; dupes := dupes s;
     done_calls := c; immediates := immediates s;
     charmap := charmap s |}.

Definition set_immediates (n : nat) (s : state) : state :=
  {| heap := heap s; files := files s; dupes := dupes s;
     done_calls := done_calls s; immediates := n;
     charmap := charmap s |}.

Definition set_charmap (c : list value) (s : state) : state :=
  {| heap := heap s; files := files s; dupes := dupes s;
     done_calls := done_calls s; immediates := immediates s;
     charmap := c |}.

(** [xs.forEach(f)]. *)
Fixpoint for_each {A : Type} (f : A -> M unit) (xs : list A) : M unit :=
  match xs with
  | [] => pure tt
  | x :: xs' => do f x then for_each f xs'
  end.

(** Reading the document behind a reference. *)
Definition read (r : ref) : M Doc :=
  fun s => match heap s !! r with
           | Some d => (Val d, s)
           | None => (Exc (TypeError "not a document"), s)
           end.

(** [data[k] = v] on the document behind [r]. *)
Definition write (r : ref) (k : string) (v : value) : M unit :=
  let* d := read r in
  modify (fun s => set_heap (<[r := Obj.set k v d]> (heap s)) s).

(** [done(message)]: the call is recorded and returns what the host's
    callback returns. *)
Definition done (E : Externals) (c : done_call) : M value :=
  do modify (fun s => set_done_calls (done_calls s ++ [c]) s)
  then pure (done_result E).

(** [setImmediate(done)]. *)
Definition setImmediate_done : M unit :=
  modify (fun s => set_immediates (S (immediates s)) s).

(** ** The functions of [lib/index.js] *)

(** [html(str)]. *)
Definition html (str : string) : bool :=
  String.eqb (Path.extname str) ".html".

(** [resolve(str)]. *)
Definition resolve (str : string) : string :=
  let base := Path.basename str (Path.extname str) in
  let ret := Path.dirname str in
  if negb (String.eqb base "index") then
    Js.unbackslash (Path.join [ret; base])
  else ret.

(** The pieces of a pattern as the expression [/:(\w+)/g] cuts it: a
    colon followed by word characters is a placeholder, anything else
    is plain text. *)
Inductive piece : Type :=
| Text (a : ascii)
| Placeholder (name : string).

Definition is_word (a : ascii) : bool :=
  let n := N_of_ascii a in
  (((48 <=? n) && (n <=? 57)) || ((65 <=? n) && (n <=? 90))
   || ((97 <=? n) && (n <=? 122)) || (n =? 95))%N.

Definition is_colon (a : ascii) : bool := Ascii.eqb a ":"%char.

(** What an open colon contributes once the characters after it are
    known; [acc] holds the word characters read so far, last first. *)
Definition close (cur : option (list ascii)) : list piece :=
  match cur with
  | None => []
  | Some [] => [Text ":"%char]
  | Some acc => [Placeholder (Js.str (rev acc))]
  end.

Fixpoint pieces (cur : option (list ascii)) (s : string) : list piece :=
  match s with
  | EmptyString => close cur
  | String a rest =>
      match cur with
      | Some acc =>
          if is_word a then pieces (Some (a :: acc)) rest
          else close cur ++
               (if is_colon a then pieces (Some []) rest
                else Text a :: pieces None rest)
      | None =>
          if is_colon a then pieces (Some []) rest
          else Text a :: pieces None rest
      end
  end.

(** [params(pattern)]. *)
Definition params (pattern : string) : list string :=
  flat_map (fun p => match p with Placeholder k => [k] | Text _ => [] end)
           (pieces None pattern).

(** Modelled from the spec: the [substitute] package is not part of the
    repository; the spec has it "substitute each placeholder occurrence
    in the original pattern with its resolved slug/format", with
    "pattern text outside placeholders ... passed through unchanged". A
    placeholder without a value stays as written. *)
Definition substitute (pattern : string) (obj : Obj.t string) : string :=
  String.concat ""
    (map (fun p => match p with
                   | Text a => String a EmptyString
                   | Placeholder k =>
                       match Obj.get k obj with
                       | Some v => v
                       | None => ":" +:+ k
                       end
                   end)
         (pieces None pattern)).

(** The body of the loop of [family]. *)
Definition family_step (file dir : string) (ret : Obj.t ref) (kv : string * ref)
    : Obj.t ref :=
  let key := fst kv in
  if String.eqb key file then ret
  else if negb (Js.indexOf key dir =? 0)%Z then ret
  else if html key then ret
  else
    let rel := Js.slice_from (String.length dir) key in
    Obj.set rel (snd kv) ret.

(** [family(file, files)]. *)
Definition family (file : string) (files : Obj.t ref) : Obj.t ref :=
  let dir := Path.dirname file in
  let dir := if String.eqb dir "." then "" else dir in
  fold_left (family_step file dir) files [].

(** The body of the loop of [folder]. *)
Definition folder_step (file sharedPath : string) (family : Obj.t ref)
    (kv : string * ref) : Obj.t ref :=
  let otherFile := fst kv in
  if String.eqb otherFile file then family
  else if negb (Js.indexOf otherFile sharedPath =? 0)%Z then family
  else if html otherFile then family
  else
    let remainder := Js.slice_from (String.length sharedPath) otherFile in
    Obj.set remainder (snd kv) family.

(** [folder(file, files)]. *)
Definition folder (file : string) (files : Obj.t ref) : Obj.t ref :=
  let bn := Path.basename file (Path.extname file) in
  let dir := Path.dirname file in
  let dir := if String.eqb dir "." then "" else dir in
  let sharedPath := Path.join [dir; bn; "/"] in
  fold_left (folder_step file sharedPath) files [].

Section Plugin.
Variable E : Externals.

(** [slug(text, options)]. *)
Definition slug_text (text : string) (options : Obj.t value) : M string :=
  do (if is_object (prop "extend" options)
      then modify (fun s => set_charmap (charmap s ++ [prop "extend" options]) s)
      else pure tt)
  then
  let* cm := gets charmap in
  pure (slugify E cm text
          (Obj.assign (Obj.assign [] [("lower", VBool true)]) options)).

(** [data.contents.toString()]. *)
Definition contents_toString (v : value) : M string :=
  match v with
  | VUndefined | VNull => throw (TypeError "contents has no toString")
  | _ => pure (to_string E v)
  end.

(** [relink(data, moved)]. *)
Definition relink_content (content : string) (moved : Obj.t string) : string :=
  fold_left
    (fun content to_from =>
       let to := fst to_from in
       let from := snd to_from in
       Js.replace content from to)
    moved content.

Definition relink (data : ref) (moved : Obj.t string) : M unit :=
  let* d := read data in
  let* content := contents_toString (prop "contents" d) in
  write data "contents" (VBuffer (relink_content content moved)).

Definition is_empty_array (v : value) : bool :=
  match v with VArray [] => true | _ => false end.

(** The loop of [replace]: [None] is the [null] it returns for a value
    that is falsy or an empty array. *)
Fixpoint replace_keys (keys : list string) (data : Doc) (options : linkset)
    (ret : Obj.t string) : M (option (Obj.t string)) :=
  match keys with
  | [] => pure (Some ret)
  | key :: keys' =>
      let val := prop key data in
      if negb (truthy val) || is_empty_array val then pure None
      else
        let* r :=
          match val with
          | VDate t =>
              match ls_date options with
              | DateFunction f => pure (f t)
              | _ => throw (TypeError "options.date is not a function")
              end
          | _ =>
              match ls_slug options with
              | SlugFunction f => pure (f (to_string E val))
              | SlugOptions o => slug_text (to_string E val) o
              | SlugDefault => slug_text (to_string E val) []
              end
          end in
        replace_keys keys' data options (Obj.set key r ret)
  end.

Definition is_empty (s : string) : bool := (String.length s =? 0)%nat.

(** [replace(pattern, data, options)]. *)
Definition replace (pattern : option string) (data : Doc) (options : linkset)
    : M (option string) :=
  match pattern with
  | None => pure None
  | Some p =>
      if is_empty p then pure None
      else
        let* ret := replace_keys (params p) data options [] in
        match ret with
        | None => pure None
        | Some ret => pure (Some (substitute p ret))
        end
  end.

(** One field of [ls.match] against the document's value, as in the
    reducer of [findLinkset]. A string or a buffer that fails the test
    is asked whether it includes the expression, which throws; an array
    never holds the expression. *)
Definition match_field (m : matcher) (v : value) : M bool :=
  match m with
  | MString _ => throw (TypeError "test is not a function")
  | MRegExp re =>
      if test re (to_string E v) then pure true
      else match v with
           | VString s =>
               if truthy v
               then throw (TypeError "includes: regular expression given")
               else pure false
           | VBuffer _ => throw (TypeError "includes: regular expression given")
           | _ => pure false
           end
  end.

Fixpoint match_all (fields : Obj.t matcher) (file : Doc) (sofar : bool) : M bool :=
  match fields with
  | [] => pure sofar
  | (key, m) :: fields' =>
      let* sofar' :=
        (if negb sofar then pure sofar else match_field m (prop key file)) in
      match_all fields' file sofar'
  end.

Fixpoint find_match (lss : list linkset) (file : Doc) : M (option linkset) :=
  match lss with
  | [] => pure None
  | ls :: lss' =>
      let* matched := match_all (ls_match ls) file true in
      if matched then pure (Some ls) else find_match lss' file
  end.

(** What [plugin(options)] computes before it returns the transform:
    the normalized options with compiled linksets and the default
    linkset. The [dupes] object it creates is the [dupes] of the
    state. *)
Record config : Type := {
  cfg_options : options;
  cfg_defaultLinkset : linkset
}.

Definition plugin (arg : options_arg) : config :=
  let o := normalize E arg in
  let o := {| pattern := pattern o; date := date o; relative := relative o;
              linksets := map (compile_linkset E) (linksets o);
              indexFile := indexFile o; unique := unique o;
              duplicatesFail := duplicatesFail o; slug := slug o;
              customSlug := customSlug o; fileFilter := fileFilter o;
              ignoreFilter := ignoreFilter o |} in
  {| cfg_options := o;
     cfg_defaultLinkset :=
       match List.find ls_isDefault (linksets o) with
       | Some ls => ls
       | None => options_linkset o
       end |}.

(** [findLinkset(file)]. *)
Definition findLinkset (cfg : config) (file : Doc) : M linkset :=
  let* set := find_match (linksets (cfg_options cfg)) file in
  match set with
  | Some ls => pure ls
  | None => pure (cfg_defaultLinkset cfg)
  end.

(** [indexFile || 'index.html']. *)
Definition index_name (o : options) : string :=
  match indexFile o with
  | Some f => if is_empty f then "index.html" else f
  | None => "index.html"
  end.

Definition unique_truthy (o : options) : bool :=
  match unique o with UniqueOff => false | _ => true end.

(** The [do ... while] of [defaultUniquePath]; [fuel] bounds the number
    of further rounds, and running out of it is [Diverges]. *)
Fixpoint defaultUniquePath_loop (fuel : nat) (o : options) (targetPath : string)
    (counter : nat) (postfix : string) : M value :=
  let target := Path.join [targetPath +:+ postfix; index_name o] in
  let* fs := gets files in
  if duplicatesFail o && Obj.has target fs then
    done E (DoneError ("Permalinks: Clash with another target file " +:+ target))
  else if unique_truthy o && Obj.has target fs then
    match fuel with
    | O => throw Diverges
    | S fuel' =>
        defaultUniquePath_loop fuel' o targetPath (S counter)
          ("-" +:+ Js.of_nat (S counter))
    end
  else pure (VString target).

Definition defaultUniquePath (fuel : nat) (o : options) (targetPath : value)
    : M value :=
  defaultUniquePath_loop fuel o (to_string E targetPath) 0 "".

(** [makeUnique(ppath, files, file, options)]. *)
Definition makeUnique (fuel : nat) (o : options) (ppath : value) (file : string)
    : M value :=
  match unique o with
  | UniqueFunction f =>
      let* fs := gets files in
      pure (f ppath fs file)
  | _ => defaultUniquePath fuel o ppath
  end.

(** The loop over [fam]: each member is staged in [dupes] under its new
    key and noted in [moved]. [path.posix.join] throws unless [ppath] is
    a string. *)
Fixpoint stage (ppath : value) (fam : Obj.t ref) (moved : Obj.t string)
    : M (Obj.t string) :=
  match fam with
  | [] => pure moved
  | (key, member) :: fam' =>
      match ppath with
      | VString p =>
          let rel := Path.join [p; key] in
          do modify (fun s => set_dupes (Obj.set rel member (dupes s)) s)
          then stage ppath fam' (Obj.set key rel moved)
      | _ => throw (TypeError "path must be a string")
      end
  end.

(** [data] is [files[file]]; reading a property of [undefined] throws. *)
Definition deref (data : option ref) : M ref :=
  match data with
  | Some r => pure r
  | None => throw (TypeError "cannot read a property of undefined")
  end.

Definition field (data : option ref) (k : string) : M value :=
  let* r := deref data in
  let* d := read r in
  pure (prop k d).

Definition is_false (v : value) : bool :=
  match v with VBool false => true | _ => false end.

(** The [switch (linkset.relative)]: [None] is the [fam] left
    undefined. *)
Definition collect (linkset : linkset) (file : string) (fs : Obj.t ref)
    : option (Obj.t ref) :=
  match ls_relative linkset with
  | VBool true => Some (family file fs)
  | VString policy =>
      if String.eqb policy "folder" then Some (folder file fs) else None
  | _ => None
  end.

(** [replace(linkset.pattern, data, linkset) || resolve(file)]. *)
Definition replace_or_resolve (linkset : linkset) (data : Doc) (file : string)
    : M string :=
  let* replaced := replace (ls_pattern linkset) data linkset in
  match replaced with
  | Some s => if is_empty s then pure (resolve file) else pure s
  | None => pure (resolve file)
  end.

(** The body of the main [forEach], from the linkset on. *)
Definition relocate (cfg : config) (fuel : nat) (file : string) (data : ref)
    : M unit :=
  let o := cfg_options cfg in
  let* d := read data in
  let* linkset := findLinkset cfg d in
  let* ppath := replace_or_resolve linkset d file in
  let* fs := gets files in
  let fam := collect linkset file fs in
  let ppath :=
    if Obj.has "permalink" d && negb (is_false (prop "permalink" d))
    then prop "permalink" d
    else VString ppath in
  let* out := makeUnique fuel o ppath file in
  let* moved :=
    match fam with
    | Some fam => stage ppath fam []
    | None => pure []
    end in
  let* p :=
    match ppath with
    | VString p => pure p
    | _ => throw (TypeError "ppath.replace is not a function")
    end in
  do write data "path" (VString (if String.eqb p "." then "" else Js.unbackslash p))
  then
  let* path := field (Some data) "path" in
  do (if negb (Js.ends_with (to_string E path) "html")
      then write data "path" (VString (to_string E path +:+ "/index.html"))
      else pure tt)
  then
  do relink data moved
  then
  modify (fun s =>
            set_files (Obj.set (to_string E out) data (Obj.delete file (files s))) s).

(** The callback of the main [forEach]. *)
Definition process (cfg : config) (fuel : nat) (file : string) : M unit :=
  let o := cfg_options cfg in
  let* fs := gets files in
  let data := Obj.get file fs in
  let* inDirectories :=
    match fileFilter o with
    | Some re =>
        let* path := field data "path" in
        pure (test re (to_string E path))
    | None => pure true
    end in
  let* inDirectories :=
    match ignoreFilter o with
    | Some re =>
        let* path := field data "path" in
        pure (negb (test re (to_string E path)))
    | None => pure inDirectories
    end in
  if negb inDirectories then pure tt
  else
    do match customSlug o with
       | Some f =>
           let* r := deref data in
           let* d := read r in
           write r "slug" (if truthy (prop "slug" d) then prop "slug" d else f d)
       | None => pure tt
       end
    then
    if negb (html file) then pure tt
    else
      let* permalink := field data "permalink" in
      if is_false permalink then pure tt
      else
        let* r := deref data in
        relocate cfg fuel file r.

(** The loop that ends the transform: the staged documents are written
    into [files]. *)
Definition flush : M unit :=
  let* ds := gets dupes in
  for_each
    (fun dupe => modify (fun s => set_files (Obj.set (fst dupe) (snd dupe) (files s)) s))
    ds.

(** The function [plugin] returns, run on the [files] of the state. *)
Definition transform (cfg : config) (fuel : nat) : M unit :=
  do setImmediate_done then
  let* fs := gets files in
  do for_each (process cfg fuel) (Obj.keys fs) then
  flush.

(** A call by the host with its [files] and its [done]: the call, and
    then the callbacks scheduled with [setImmediate], each a [done()]. *)
Definition call (cfg : config) (fuel : nat) (fs : Obj.t ref) (s : state)
    : result unit * state :=
  transform cfg fuel (set_files fs (set_done_calls [] (set_immediates 0 s))).

Definition event_loop (s : state) : state :=
  set_immediates 0
    (set_done_calls (done_calls s ++ repeat DoneOk (immediates s)) s).

Definition run (cfg : config) (fuel : nat) (fs : Obj.t ref) (s : state) : state :=
  event_loop (snd (call cfg fuel fs s)).

End Plugin.

(** The state when [plugin(options)] returns: [dupes] is empty. *)
Definition configured (h : list Doc) : state :=
  {| heap := h; files := []; dupes := []; done_calls := [];
     immediates := 0; charmap := [] |}.

(** ** Inputs of the examples

    Stand-ins for the libraries and the host, to run closed examples: a
    slugify that returns its text, a formatter that returns the format,
    a [done] that returns nothing. The examples that show the code
    departing from a statement reach neither slugify nor moment nor
    [new RegExp]: their patterns resolve no placeholder, no date is
    formatted and no linkset is configured. *)
Definition stand_in : Externals :=
  {| slugify := fun _ text _ => text;
     moment_utc_format := fun fmt _ => fmt;
     date_toString := fun _ => "Invalid Date";
     new_RegExp := fun source =>
       {| test := fun s => bool_decide (is_Some (Js.index_from 0 source s)) |};
     done_result := VUndefined |}.

(** A document with the given contents and metadata. *)
Definition document (contents : string) (meta : Obj.t value) : Doc :=
  ("contents", VBuffer contents) :: meta.

(** Options with a pattern, a [relative] property, a [unique] and a
    [duplicatesFail] setting, and nothing else. *)
Definition options_of (p : option string) (rel : option value)
    (u : unique_setting) (fail : bool) : options :=
  {| pattern := p; date := DateAbsent; relative := rel; linksets := [];
     indexFile := None; unique := u; duplicatesFail := fail;
     slug := SlugDefault; customSlug := None;
     fileFilter := None; ignoreFilter := None |}.

(** A site with a page and an image at its root. *)
Definition root_site : Obj.t ref := [("about.html", 0); ("logo.png", 1)].

(** Three pages; the pattern sends the first two to [news], the third
    names its own permalink. *)
Definition news_options : options :=
  options_of (Some "news") (Some (VBool false)) UniqueOff true.

Definition news_site : Obj.t ref := [("a.html", 0); ("b.html", 1); ("c.html", 2)].

Definition news_documents : list Doc :=
  [document "A" []; document "B" [];
   document "C" [("permalink", VString "other")]].

(** The state of the news build when the first page has been moved. *)
Definition news_after_first : state :=
  {| heap := [document "A" [("path", VString "news/index.html")];
              document "B" [];
              document "C" [("permalink", VString "other")]];
     files := [("b.html", 1); ("c.html", 2); ("news/index.html", 0)];
     dupes := []; done_calls := []; immediates := 1; charmap := [] |}.

(** A post with an image beside it, and a page of a later build. *)
Definition blog_site : Obj.t ref := [("blog/post.html", 0); ("blog/post.png", 1)].

Definition blog_documents : list Doc :=
  [document "<img src=post.png>" []; document "png" []; document "other" []].

Definition first_build : state :=
  run stand_in (plugin stand_in OptionsNone) 0 blog_site (configured blog_documents).

(** A post whose pattern sends it to a directory where an image of the
    same name already is; the strictest settings are on. *)
Definition strict_options : options := options_of (Some "b") None UniqueOn true.

Definition crowded_site : Obj.t ref :=
  [("a/post.html", 0); ("a/pic.png", 1); ("b/pic.png", 2)].

Definition crowded_documents : list Doc :=
  [document "post" []; document "mine" []; document "theirs" []].

(** The crowded build when its loop is over and the flush begins. *)
Definition crowded_before_flush : state :=
  {| heap := [document "post" [("path", VString "b/index.html")];
              document "mine" []; document "theirs" []];
     files := [("a/pic.png", 1); ("b/pic.png", 2); ("b/index.html", 0)];
     dupes := [("b/pic.png", 1)];
     done_calls := []; immediates := 1; charmap := [] |}.

(** A later build with the transform of the blog build. *)
Definition second_call : result unit * state :=
  call stand_in (plugin stand_in OptionsNone) 0 [("other.html", 2)] first_build.

(** ** Notions of the statements *)



(** [options.unique] is not a function, so [makeUnique] is
    [defaultUniquePath]. *)
Definition default_resolver (o : options) : Prop :=
  match unique o with UniqueFunction _ => False | _ => True end.

(** Every run of [m] takes a state to one related to it by [R]. *)
Definition steps (R : state -> state -> Prop) {A : Type} (m : M A) : Prop :=
  forall s r s', m s = (r, s') -> R s s'.

(** What a step leaves alone when it neither writes [files] nor calls
    [done]. *)
Definition same_files_calls (s s' : state) : Prop :=
  files s' = files s /\ done_calls s' = done_calls s.

(** The keys staged in [dupes] stay staged. *)
Definition dupes_grow (s s' : state) : Prop :=
  forall k, Obj.has k (dupes s) = true -> Obj.has k (dupes s') = true.

(** [dupes] stays an object: no key twice. *)
Definition dupes_wf (s s' : state) : Prop :=
  List.NoDup (Obj.keys (dupes s)) -> List.NoDup (Obj.keys (dupes s')).

(** ** Further notions and inputs

    The notions and the inputs of the properties of the single
    functions, which follow the statements about the plugin. *)

(** A site with a post, files beside it and in its folder, and a
    directory whose name begins like the post's. *)
Definition shelf : Obj.t ref :=
  [("blog/post.html", 0); ("blog/post.png", 1); ("blog2/x.png", 2);
   ("blog/post/a.css", 3); ("blog/other.html", 4); ("img/logo.png", 5)].

(** A non-empty text of word characters. *)
Definition word (k : string) : Prop :=
  k <> "" /\ forallb is_word (Js.chars k) = true.

(** The step changes nothing. *)
Definition untouched (s s' : state) : Prop := s' = s.

(** The options with the inclusion filter taken out. *)
Definition without_fileFilter (o : options) : options :=
  {| pattern := pattern o; date := date o; relative := relative o;
     linksets := linksets o; indexFile := indexFile o; unique := unique o;
     duplicatesFail := duplicatesFail o; slug := slug o;
     customSlug := customSlug o; fileFilter := None;
     ignoreFilter := ignoreFilter o |}.

(** The configured plugin with the inclusion filter taken out. *)
Definition config_without_fileFilter (cfg : config) : config :=
  {| cfg_options := without_fileFilter (cfg_options cfg);
     cfg_defaultLinkset := cfg_defaultLinkset cfg |}.

(** The postfix of the [n]-th round of [defaultUniquePath]. *)
Definition postfix_of (n : nat) : string :=
  match n with O => "" | S _ => "-" +:+ Js.of_nat n end.

(** The key [defaultUniquePath] tries in its [n]-th round. *)
Definition candidate (o : options) (targetPath : string) (n : nat) : string :=
  Path.join [targetPath +:+ postfix_of n; index_name o].

(** A call [done(message)]. *)
Definition is_error (c : done_call) : Prop :=
  match c with DoneError _ => True | DoneOk => False end.

(** A step that schedules nothing and only adds reports of clashes, and
    none when [duplicatesFail] is off. *)
Definition only_reports (o : options) (s s' : state) : Prop :=
  immediates s' = immediates s /\
  exists errs,
    done_calls s' = done_calls s ++ errs /\
    Forall is_error errs /\
    (duplicatesFail o = false -> errs = []).

(** The linkset asks for a family: its [relative] is [true] or
    ['folder']. *)
Definition wants_family (ls : linkset) : bool :=
  match ls_relative ls with
  | VBool true => true
  | VString policy => String.eqb policy "folder"
  | _ => false
  end.

(** The step stages nothing. *)
Definition same_dupes (s s' : state) : Prop := dupes s' = dupes s.

(** The metadata the transform writes: [path] and [contents], and [slug]
    when a [customSlug] function is configured. *)
Definition written (o : options) (k : string) : bool :=
  String.eqb k "path" || String.eqb k "contents"
  || match customSlug o with Some _ => String.eqb k "slug" | None => false end.

(** No document is created or dropped, and every document keeps the
    metadata that is not [written]. *)
Definition keeps_metadata (o : options) (s s' : state) : Prop :=
  length (heap s') = length (heap s) /\
  forall r d, heap s !! r = Some d ->
    exists d', heap s' !! r = Some d' /\
      forall k, written o k = false -> prop k d' = prop k d.

(** The step ends in an exception, in a state related to the one it
    started in. *)
Definition throws_with (R : state -> state -> Prop) {A : Type} (m : M A) : Prop :=
  forall s r s', m s = (r, s') -> (exists e, r = Exc e) /\ R s s'.

(** The step writes neither [files] nor a document. *)
Definition same_files_heap (s s' : state) : Prop :=
  files s' = files s /\ heap s' = heap s.

(** The step neither calls [done] nor schedules it. *)
Definition same_calls (s s' : state) : Prop :=
  done_calls s' = done_calls s /\ immediates s' = immediates s.

(** A name a directory or a page can have: not empty, neither [.] nor
    [..], and without a slash. *)
Definition segment (seg : string) : bool :=
  negb (String.eqb seg "") && negb (String.eqb seg ".")
  && negb (String.eqb seg "..") && forallb Path.not_slash (Js.chars seg).

(** What stands before a leaf: nothing, or a directory and a slash. *)
Definition before_leaf (pre : string) : Prop :=
  pre = "" \/ exists dir, pre = dir +:+ "/".

(** A text without a slash. *)
Definition slash_free (x : string) : Prop :=
  forallb Path.not_slash (Js.chars x) = true.

(** The [path] a document is given for the permalink [p]. *)
Definition path_of (p : string) : string :=
  let q := if String.eqb p "." then "" else Js.unbackslash p in
  if Js.ends_with q "html" then q else q +:+ "/index.html".

(** The state a call starts its loop in, for given files and documents. *)
Definition site (fs : Obj.t ref) (h : list Doc) : state :=
  set_files fs (configured h).

(** The documents of [root_site]. *)
Definition root_documents : list Doc := [document "about" []; document "png" []].

(** A page that opts out. *)
Definition hidden_documents : list Doc :=
  [document "A" [("permalink", VBool false)]].

(** Both filters are set. *)
Definition filtered_options : options :=
  {| pattern := None; date := DateAbsent; relative := None; linksets := [];
     indexFile := None; unique := UniqueOff; duplicatesFail := false;
     slug := SlugDefault; customSlug := None;
     fileFilter := Some (new_RegExp stand_in "blog");
     ignoreFilter := Some (new_RegExp stand_in "draft") |}.

(** [unique] is on, [duplicatesFail] is off. *)
Definition numbered_options : options := options_of None None UniqueOn false.

(** A page whose first two targets are taken. *)
Definition numbered_site : Obj.t ref :=
  [("about.html", 0); ("about/index.html", 1); ("about-1/index.html", 2)].

(** The documents of [numbered_site]. *)
Definition numbered_documents : list Doc :=
  [document "about" []; document "first" []; document "second" []].

(** A linkset for the documents of the collection [posts]. *)
Definition posts_linkset : linkset :=
  {| ls_pattern := Some "posts/:title";
     ls_match := [("collection", MString "posts")];
     ls_relative := VBool false; ls_isDefault := false;
     ls_slug := SlugDefault; ls_date := DateFormat "YYYY" |}.

(** Options with that linkset and a pattern of their own. *)
Definition linked_options : options :=
  {| pattern := Some ":title"; date := DateAbsent; relative := None;
     linksets := [posts_linkset];
     indexFile := None; unique := UniqueOff; duplicatesFail := false;
     slug := SlugDefault; customSlug := None;
     fileFilter := None; ignoreFilter := None |}.

(** A document of the collection [posts], with a date. *)
Definition post : Doc :=
  document "post" [("title", VString "Hello"); ("collection", VString "posts");
                   ("date", VDate 0)].

(** A document of another collection. *)
Definition page : Doc :=
  document "page" [("title", VString "About"); ("collection", VString "pages")].

(** Every document gets the slug [custom]. *)
Definition slugged_options : options :=
  {| pattern := None; date := DateAbsent; relative := None; linksets := [];
     indexFile := None; unique := UniqueOff; duplicatesFail := false;
     slug := SlugDefault; customSlug := Some (fun _ => VString "custom");
     fileFilter := None; ignoreFilter := None |}.

(** The resolver sends every page to the same key, under
    [duplicatesFail]. *)
Definition stubborn_options : options :=
  {| pattern := None; date := DateAbsent; relative := None; linksets := [];
     indexFile := None; unique := UniqueFunction (fun _ _ _ => VString "same");
     duplicatesFail := true;
     slug := SlugDefault; customSlug := None;
     fileFilter := None; ignoreFilter := None |}.

(** ** The path functions and the objects on examples *)

Example dirname_examples :
  map Path.dirname ["about.html"; "blog/post.html"; "a/b/c.png"; "/a"; "a//b"; ""; "a/"; "//a"]
  = ["."; "blog"; "a/b"; "/"; "a/"; "."; "."; "//"].
Proof. reflexivity. Qed.

Example extname_examples :
  map Path.extname ["about.html"; ".html"; "a.b.c"; "a."; ".."; "x/y.html/"; "noext"; "..b"]
  = [".html"; ""; ".c"; "."; ""; ".html"; ""; ".b"].
Proof. reflexivity. Qed.

Example basename_examples :
  map (fun p => Path.basename p (Path.extname p))
      ["about.html"; "blog/index.html"; "a/b/c.png"; ".html"; "x/y.html/"]
  = ["about"; "index"; "c"; ".html"; "y"].
Proof. reflexivity. Qed.

Example join_examples :
  map Path.join [["."; "about"]; ["blog/my-post"; "/post.png"]; ["a"; "../b"]; [""; "post"; "/"];
                 ["about"; "index.html"]; [""; ""]; ["a/.."; "x"]; [".."; "x"]]
  = ["about"; "blog/my-post/post.png"; "b"; "post/"; "about/index.html"; "."; "x"; "../x"].
Proof. reflexivity. Qed.

Example replace_examples :
  map (fun '(c, p, r) => Js.replace c p r)
      [("a b a", "a", "x"); ("abc", "z", "x"); ("abc", "b", "[$&$$$`$'$1]"); ("abc", "", "-")]
  = ["x b a"; "abc"; "a[b$ac$1]c"; "-abc"].
Proof. reflexivity. Qed.

Example object_order :
  Obj.keys (Obj.set "b" 3 (Obj.set "7" 2 (Obj.set "b" 1 (Obj.set "10" 0 (Obj.set "a" 0 [])))))
  = ["7"; "10"; "a"; "b"].
Proof. reflexivity. Qed.

Example params_example :
  params ":a/::b-:c_d:/x:" = ["a"; "b"; "c_d"]
  /\ substitute ":a/::b-:c_d:/x:" [("a", "1"); ("b", "2")] = "1/:2-:c_d:/x:".
Proof. split; reflexivity. Qed.

Example resolve_examples :
  map resolve ["about.html"; "index.html"; "blog/post.html"; "blog/index.html"]
  = ["about"; "."; "blog/post"; "blog"].
Proof. reflexivity. Qed.

(** ** Facts about objects *)

Section ObjectFacts.
Context {A : Type}.
Implicit Types (o : Obj.t A) (k : string) (v : A).

Lemma get_update k k' v o :
  Obj.get k' (Obj.update k v o) =
  if String.eqb k k' then (if Obj.has k o then Some v else None)
  else Obj.get k' o.
Proof.
  unfold Obj.has. induction o as [|[k0 v0] o IH]; simpl.
  - destruct (String.eqb k k'); reflexivity.
  - destruct (String.eqb_spec k0 k) as [->|Hk0]; simpl.
    + destruct (String.eqb_spec k k'); reflexivity.
    + destruct (String.eqb_spec k0 k') as [->|Hk0'].
      * destruct (String.eqb_spec k k'); congruence.
      * exact IH.
Qed.

Lemma get_insert_index n k k' v o :
  Obj.get k o = None ->
  Obj.get k' (Obj.insert_index n k v o) =
  if String.eqb k k' then Some v else Obj.get k' o.
Proof.
  induction o as [|[k0 v0] o IH]; simpl; intros Hk.
  - reflexivity.
  - destruct (String.eqb_spec k0 k) as [->|Hk0]; [discriminate|].
    destruct (Obj.array_index k0) as [n'|]; [destruct (n' <? n)%N|]; simpl;
      try reflexivity.
    rewrite IH by assumption.
    destruct (String.eqb_spec k0 k') as [->|]; [|reflexivity].
    destruct (String.eqb_spec k k'); congruence.
Qed.

Lemma get_app k o o' :
  Obj.get k (o ++ o') =
  match Obj.get k o with Some v => Some v | None => Obj.get k o' end.
Proof.
  induction o as [|[k0 v0] o IH]; simpl; [reflexivity|].
  destruct (String.eqb k0 k); [reflexivity|exact IH].
Qed.

(** Reading after writing. *)
Lemma get_set k k' v o :
  Obj.get k' (Obj.set k v o) = if String.eqb k k' then Some v else Obj.get k' o.
Proof.
  unfold Obj.set. destruct (Obj.has k o) eqn:Hhas.
  - rewrite get_update, Hhas. reflexivity.
  - unfold Obj.has in Hhas. destruct (Obj.get k o) eqn:Hget; [discriminate|].
    destruct (Obj.array_index k).
    + apply get_insert_index; assumption.
    + rewrite get_app. simpl. destruct (String.eqb_spec k k') as [->|].
      * rewrite Hget. reflexivity.
      * destruct (Obj.get k' o); reflexivity.
Qed.

Lemma has_set k k' v o :
  Obj.has k' (Obj.set k v o) = String.eqb k k' || Obj.has k' o.
Proof.
  unfold Obj.has. rewrite get_set. destruct (String.eqb k k'); reflexivity.
Qed.

(** Reading after deleting. *)
Lemma get_delete k k' o :
  Obj.get k' (Obj.delete k o) = if String.eqb k k' then None else Obj.get k' o.
Proof.
  unfold Obj.delete. induction o as [|[k0 v0] o IH]; simpl.
  - destruct (String.eqb k k'); reflexivity.
  - destruct (String.eqb_spec k0 k) as [->|Hk0]; simpl.
    + rewrite IH. destruct (String.eqb k k'); reflexivity.
    + rewrite IH. destruct (String.eqb_spec k0 k') as [->|]; [|reflexivity].
      destruct (String.eqb_spec k k'); congruence.
Qed.

Lemma get_None_keys k o : Obj.get k o = None <-> ~ In k (Obj.keys o).
Proof.
  induction o as [|[k0 v0] o IH]; simpl.
  - tauto.
  - destruct (String.eqb_spec k0 k) as [->|Hk0].
    + split; [discriminate|]. intros H. exfalso. apply H. now left.
    + rewrite IH. tauto.
Qed.

Lemma keys_update k v o : Obj.keys (Obj.update k v o) = Obj.keys o.
Proof.
  induction o as [|[k0 v0] o IH]; simpl; [reflexivity|].
  destruct (String.eqb k0 k); simpl; [reflexivity|]. now rewrite IH.
Qed.

Lemma keys_insert_index n k v o :
  Permutation (Obj.keys (Obj.insert_index n k v o)) (k :: Obj.keys o).
Proof.
  induction o as [|[k0 v0] o IH]; simpl; [reflexivity|].
  destruct (Obj.array_index k0) as [n'|]; [destruct (n' <? n)%N|]; simpl;
    try reflexivity.
  rewrite IH. apply perm_swap.
Qed.

(** Writing keeps every key once. *)
Lemma keys_set_NoDup k v o :
  List.NoDup (Obj.keys o) -> List.NoDup (Obj.keys (Obj.set k v o)).
Proof.
  intros Hnd. unfold Obj.set. destruct (Obj.has k o) eqn:Hhas.
  - now rewrite keys_update.
  - assert (Hk : ~ In k (Obj.keys o)).
    { apply get_None_keys. unfold Obj.has in Hhas.
      destruct (Obj.get k o); [discriminate|reflexivity]. }
    destruct (Obj.array_index k).
    + eapply Permutation_NoDup; [symmetry; apply keys_insert_index|].
      constructor; assumption.
    + unfold Obj.keys. rewrite map_app. simpl.
      eapply Permutation_NoDup; [apply Permutation_cons_append|].
      constructor; assumption.
Qed.

End ObjectFacts.

Lemma prop_set k k' v d :
  prop k' (Obj.set k v d) = if String.eqb k k' then v else prop k' d.
Proof. unfold prop. rewrite get_set. destruct (String.eqb k k'); reflexivity. Qed.

Lemma prop_absent k d : Obj.has k d = false -> prop k d = VUndefined.
Proof.
  unfold prop, Obj.has. destruct (Obj.get k d); [discriminate|reflexivity].
Qed.

(** A closed list of keys has each key once. *)
Ltac distinct_keys :=
  repeat (apply List.NoDup_cons; [simpl; intuition discriminate|]);
  apply List.NoDup_nil.

(** ** Runs and what they leave alone *)

Lemma bind_Val {A B : Type} (m : M A) (k : A -> M B) s b s' :
  bind m k s = (Val b, s') ->
  exists a s1, m s = (Val a, s1) /\ k a s1 = (Val b, s').
Proof.
  unfold bind. destruct (m s) as [[a|e] s1]; intros H.
  - exists a, s1. split; [reflexivity|exact H].
  - discriminate.
Qed.

Ltac run_bind H :=
  let a := fresh "a" in
  let s1 := fresh "s" in
  let H1 := fresh "Hrun" in
  apply bind_Val in H; destruct H as (a & s1 & H1 & H).

Section Frame.
Variable R : state -> state -> Prop.
Hypothesis R_refl : forall s, R s s.
Hypothesis R_trans : forall s1 s2 s3, R s1 s2 -> R s2 s3 -> R s1 s3.

Lemma steps_pure {A : Type} (a : A) : steps R (pure a).
Proof. intros s r s' H. inversion H. apply R_refl. Qed.

Lemma steps_throw {A : Type} (e : exn) : steps R (@throw A e).
Proof. intros s r s' H. inversion H. apply R_refl. Qed.

Lemma steps_gets {A : Type} (f : state -> A) : steps R (gets f).
Proof. intros s r s' H. inversion H. apply R_refl. Qed.

Lemma steps_modify (f : state -> state) :
  (forall s, R s (f s)) -> steps R (modify f).
Proof. intros Hf s r s' H. inversion H. apply Hf. Qed.

Lemma steps_bind {A B : Type} (m : M A) (k : A -> M B) :
  steps R m -> (forall a, steps R (k a)) -> steps R (bind m k).
Proof.
  intros Hm Hk s r s' H. unfold bind in H.
  destruct (m s) as [[a|e] s1] eqn:Hms.
  - eapply R_trans; [eapply Hm; eassumption|eapply Hk; eassumption].
  - inversion H; subst. eapply Hm; eassumption.
Qed.

Lemma steps_for_each {A : Type} (f : A -> M unit) (xs : list A) :
  (forall x, steps R (f x)) -> steps R (for_each f xs).
Proof.
  intros Hf. induction xs as [|x xs IH]; simpl.
  - apply steps_pure.
  - apply steps_bind; [apply Hf|intros _; exact IH].
Qed.

Lemma steps_read r : steps R (read r).
Proof.
  intros s res s' H. unfold read in H.
  destruct (heap s !! r); inversion H; apply R_refl.
Qed.

Lemma steps_deref data : steps R (deref data).
Proof. destruct data; [apply steps_pure|apply steps_throw]. Qed.

End Frame.

(** The combinators are taken apart; what is left is a loop or a step
    that writes the state. *)
Ltac steps_tac :=
  repeat first
    [ apply steps_pure; assumption
    | apply steps_throw; assumption
    | apply steps_gets; assumption
    | apply steps_read; assumption
    | apply steps_deref; assumption
    | apply steps_bind; [assumption| |intros]
    | apply steps_modify; intros; solve [auto]
    | match goal with
      | |- steps _ (match ?x with _ => _ end) => destruct x
      | |- steps _ (if ?b then _ else _) => destruct b
      end ].

Section FrameOfTheTransform.
Variable E : Externals.
Variable R : state -> state -> Prop.
Hypothesis R_refl : forall s, R s s.
Hypothesis R_trans : forall s1 s2 s3, R s1 s2 -> R s2 s3 -> R s1 s3.
Hypothesis R_heap : forall s h, R s (set_heap h s).
Hypothesis R_charmap : forall s c, R s (set_charmap c s).
Hypothesis R_dupes : forall s k v, R s (set_dupes (Obj.set k v (dupes s)) s).

Lemma steps_slug_text text o : steps R (slug_text E text o).
Proof. unfold slug_text. steps_tac. Qed.

Lemma steps_contents_toString v : steps R (contents_toString E v).
Proof. unfold contents_toString. steps_tac. Qed.

Lemma steps_replace_keys keys d ls ret : steps R (replace_keys E keys d ls ret).
Proof.
  revert ret. induction keys as [|key keys IH]; intros ret; simpl.
  - steps_tac.
  - steps_tac; try apply steps_slug_text; apply IH.
Qed.

Lemma steps_replace p d ls : steps R (replace E p d ls).
Proof. unfold replace. steps_tac. apply steps_replace_keys. Qed.

Lemma steps_match_field m v : steps R (match_field E m v).
Proof. unfold match_field. steps_tac. Qed.

Lemma steps_match_all fields file sofar : steps R (match_all E fields file sofar).
Proof.
  revert sofar. induction fields as [|[key m] fields IH]; intros sofar; simpl.
  - steps_tac.
  - steps_tac; try apply steps_match_field; apply IH.
Qed.

Lemma steps_find_match lss file : steps R (find_match E lss file).
Proof.
  induction lss as [|ls lss IH]; simpl.
  - steps_tac.
  - steps_tac; try apply steps_match_all. exact IH.
Qed.

Lemma steps_stage ppath fam moved : steps R (stage ppath fam moved).
Proof.
  revert moved. induction fam as [|[key member] fam IH]; intros moved; simpl.
  - steps_tac.
  - steps_tac. apply IH.
Qed.

Hypothesis R_files : forall s f, R s (set_files f s).
Hypothesis R_done_calls : forall s c, R s (set_done_calls c s).
Hypothesis R_immediates : forall s n, R s (set_immediates n s).

Lemma steps_defaultUniquePath_loop fuel o targetPath counter postfix :
  steps R (defaultUniquePath_loop E fuel o targetPath counter postfix).
Proof.
  revert counter postfix.
  induction fuel as [|fuel IH]; intros counter postfix; simpl.
  - unfold done. steps_tac.
  - unfold done. steps_tac. apply IH.
Qed.

Lemma steps_makeUnique fuel o ppath file : steps R (makeUnique E fuel o ppath file).
Proof.
  unfold makeUnique, defaultUniquePath.
  steps_tac; apply steps_defaultUniquePath_loop.
Qed.

Lemma steps_process cfg fuel file : steps R (process E cfg fuel file).
Proof.
  unfold process.
  steps_tac;
    auto using steps_find_match, steps_replace, steps_contents_toString,
      steps_makeUnique, steps_stage.
Qed.

Lemma steps_transform cfg fuel : steps R (transform E cfg fuel).
Proof.
  unfold transform, setImmediate_done. steps_tac.
  - apply steps_for_each; auto using steps_process.
  - apply steps_for_each; [assumption|assumption|]. intros x. steps_tac.
Qed.

End FrameOfTheTransform.

Lemma sfc_refl s : same_files_calls s s.
Proof. split; reflexivity. Qed.

Lemma sfc_trans s1 s2 s3 :
  same_files_calls s1 s2 -> same_files_calls s2 s3 -> same_files_calls s1 s3.
Proof. intros [H1 H2] [H3 H4]. split; congruence. Qed.

Lemma sfc_heap s h : same_files_calls s (set_heap h s).
Proof. split; reflexivity. Qed.

Lemma sfc_charmap s c : same_files_calls s (set_charmap c s).
Proof. split; reflexivity. Qed.

Lemma sfc_dupes s k v : same_files_calls s (set_dupes (Obj.set k v (dupes s)) s).
Proof. split; reflexivity. Qed.

(** From a run [H : m s = (r, s')] of a step that writes neither
    [files] nor the calls of [done]. *)
Ltac frame H :=
  match type of H with
  | ?m ?s = (?r, ?s') =>
      let F := fresh "F" in
      assert (F : same_files_calls s s')
        by (apply (fun St : steps same_files_calls m => St s r s' H);
            pose proof sfc_refl; pose proof sfc_trans; pose proof sfc_heap;
            pose proof sfc_charmap; pose proof sfc_dupes;
            steps_tac;
            auto using steps_find_match, steps_replace, steps_contents_toString,
              steps_stage)
  end.

Ltac unpack :=
  unfold same_files_calls in *;
  repeat match goal with H : _ /\ _ |- _ => destruct H end.

(** ** Clashes under [duplicatesFail] *)

Section Clash.
Variable E : Externals.

(** The default resolver either returns a target and calls nothing, or
    reports a clash with a key of [files] and returns what [done]
    returned. *)
Lemma defaultUniquePath_loop_spec fuel o targetPath counter postfix s r s' :
  defaultUniquePath_loop E fuel o targetPath counter postfix s = (r, s') ->
  files s' = files s /\
  ((done_calls s' = done_calls s /\
    forall v, r = Val v -> exists target, v = VString target) \/
   (exists target,
      r = Val (done_result E) /\ duplicatesFail o = true /\
      Obj.has target (files s) = true /\
      done_calls s' =
        done_calls s ++
        [DoneError ("Permalinks: Clash with another target file " +:+ target)])).
Proof.
  revert counter postfix.
  induction fuel as [|fuel IH]; intros counter postfix; simpl;
    unfold bind, gets, done, bind, modify, pure, throw; simpl;
    destruct (duplicatesFail o) eqn:Hfail; simpl;
    destruct (Obj.has _ (files s)) eqn:Hhas; simpl;
    try (intros H; inversion H; subst; clear H; split; [reflexivity|];
         first [ right; eexists; repeat split; eassumption
               | left; split; [reflexivity|]; intros v Hv; inversion Hv; eauto ]).
  all: destruct (unique_truthy o); simpl;
    try (intros H; inversion H; subst; clear H; split; [reflexivity|];
         left; split; [reflexivity|]; intros v Hv; inversion Hv; eauto).
  all: apply IH.
Qed.

Lemma makeUnique_spec fuel o ppath file s r s' :
  default_resolver o ->
  makeUnique E fuel o ppath file s = (r, s') ->
  files s' = files s /\
  ((done_calls s' = done_calls s /\
    forall v, r = Val v -> exists target, v = VString target) \/
   (exists target,
      r = Val (done_result E) /\ duplicatesFail o = true /\
      Obj.has target (files s) = true /\
      done_calls s' =
        done_calls s ++
        [DoneError ("Permalinks: Clash with another target file " +:+ target)])).
Proof.
  unfold default_resolver, makeUnique, defaultUniquePath.
  destruct (unique o); intros Hdef; try contradiction;
    apply defaultUniquePath_loop_spec.
Qed.

(** After a reported clash the rest of the callback runs with what
    [done] returned as the output key. *)
Lemma relocate_clash cfg fuel file data s s' :
  done_result E = VUndefined ->
  default_resolver (cfg_options cfg) ->
  relocate E cfg fuel file data s = (Val tt, s') ->
  done_calls s' <> done_calls s ->
  duplicatesFail (cfg_options cfg) = true /\
  files s' = Obj.set "undefined" data (Obj.delete file (files s)).
Proof.
  intros Hdone Hdef H Hcalls. unfold relocate in H.
  run_bind H. frame Hrun.
  run_bind H. frame Hrun0.
  run_bind H. frame Hrun1.
  run_bind H. frame Hrun2.
  run_bind H. apply makeUnique_spec in Hrun3; [|exact Hdef].
  run_bind H. frame Hrun4.
  run_bind H. frame Hrun5.
  run_bind H. frame Hrun6.
  run_bind H. frame Hrun7.
  run_bind H. frame Hrun8.
  run_bind H. frame Hrun9.
  unfold modify in H. inversion H; subst s'; clear H. simpl in *.
  destruct Hrun3 as [Hfiles [[Hsame _]|(target & Hr & Hfail & _ & _)]].
  - exfalso. apply Hcalls. unpack. congruence.
  - inversion Hr; subst a3. rewrite Hdone. simpl. split; [exact Hfail|].
    unpack. do 2 f_equal. congruence.
Qed.

(** C9. With [duplicatesFail] and the default resolver, a document for
    which the callback of the main loop reports a clash (it calls
    [done], whose call returns nothing) and then runs to its end is
    nevertheless moved: it leaves its old key and is stored under the
    key ["undefined"], the text of what the resolver returned. *)
Theorem clash_moves_document_to_undefined cfg fuel file s s' :
  done_result E = VUndefined ->
  default_resolver (cfg_options cfg) ->
  process E cfg fuel file s = (Val tt, s') ->
  done_calls s' <> done_calls s ->
  duplicatesFail (cfg_options cfg) = true /\
  exists data,
    Obj.get file (files s) = Some data /\
    files s' = Obj.set "undefined" data (Obj.delete file (files s)) /\
    Obj.get "undefined" (files s') = Some data /\
    (file <> "undefined" -> Obj.get file (files s') = None).
Proof.
  intros Hdone Hdef H Hcalls. unfold process in H.
  run_bind H. unfold gets in Hrun. inversion Hrun; subst a s0; clear Hrun.
  run_bind H. frame Hrun.
  run_bind H. frame Hrun0.
  destruct (negb a0).
  { inversion H; subst. exfalso. apply Hcalls. unpack. congruence. }
  run_bind H. frame Hrun1.
  destruct (negb (html file)).
  { inversion H; subst. exfalso. apply Hcalls. unpack. congruence. }
  run_bind H. frame Hrun2.
  destruct (is_false a2).
  { inversion H; subst. exfalso. apply Hcalls. unpack. congruence. }
  run_bind H. frame Hrun3.
  destruct (Obj.get file (files s)) as [data|] eqn:Hdata; [|discriminate].
  unfold deref, pure in Hrun3.
  match type of Hrun3 with
  | _ = (Val ?x, ?y) => injection Hrun3 as Hx Hy; subst x y
  end.
  unpack.
  apply relocate_clash in H; [|assumption|assumption|congruence].
  destruct H as [Hfail Hfiles]. split; [exact Hfail|].
  exists data.
  assert (Hf : files s' = Obj.set "undefined" data (Obj.delete file (files s)))
    by (rewrite Hfiles; do 2 f_equal; congruence).
  split; [reflexivity|]. split; [exact Hf|]. rewrite Hf. split.
  - rewrite get_set. reflexivity.
  - intros Hne. rewrite get_set, get_delete.
    destruct (String.eqb_spec "undefined" file); [congruence|].
    rewrite String.eqb_refl. reflexivity.
Qed.

End Clash.

Example news_after_first_is_reached :
  snd (process stand_in (plugin stand_in (OptionsObject news_options)) 0 "a.html"
         (set_immediates 1 (set_files news_site (configured news_documents))))
  = news_after_first.
Proof. vm_compute. reflexivity. Qed.

(** The second page of the news build clashes with the first. *)
Lemma clash_moves_document_to_undefined_witness :
  let cfg := plugin stand_in (OptionsObject news_options) in
  let s' := snd (process stand_in cfg 0 "b.html" news_after_first) in
  duplicatesFail (cfg_options cfg) = true /\
  exists data,
    Obj.get "b.html" (files news_after_first) = Some data /\
    files s' = Obj.set "undefined" data (Obj.delete "b.html" (files news_after_first)) /\
    Obj.get "undefined" (files s') = Some data /\
    ("b.html" <> "undefined" -> Obj.get "b.html" (files s') = None).
Proof.
  apply (clash_moves_document_to_undefined stand_in
           (plugin stand_in (OptionsObject news_options)) 0 "b.html"
           news_after_first).
  - reflexivity.
  - exact I.
  - vm_compute. reflexivity.
  - vm_compute. discriminate.
Defined.

(** C1. The news build: the second page clashes with the first, [done]
    is called with the error that names [news/index.html], and the
    pass goes on all the same: the clashing page is stored under
    ["undefined"] with a [path], and the third page, which comes after
    it in the snapshot, is renamed and given a [path] as well. *)
Theorem clash_does_not_stop_the_pass :
  run stand_in (plugin stand_in (OptionsObject news_options)) 0 news_site
    (configured news_documents)
  = {| heap :=
         [document "A" [("path", VString "news/index.html")];
          document "B" [("path", VString "news/index.html")];
          document "C" [("permalink", VString "other");
                        ("path", VString "other/index.html")]];
       files := [("news/index.html", 0); ("undefined", 1); ("other/index.html", 2)];
       dupes := [];
       done_calls :=
         [DoneError "Permalinks: Clash with another target file news/index.html";
          DoneOk];
       immediates := 0;
       charmap := [] |}.
Proof. vm_compute. reflexivity. Qed.

(** C6. The news build again: [done] is called with the error while the
    pass runs, and once more, without one, by the callback that
    [setImmediate] scheduled before the pass. *)
Theorem done_is_called_twice_on_a_clash :
  done_calls
    (run stand_in (plugin stand_in (OptionsObject news_options)) 0 news_site
       (configured news_documents))
  = [DoneError "Permalinks: Clash with another target file news/index.html";
     DoneOk].
Proof. vm_compute. reflexivity. Qed.

(** ** Relinking *)


(** ** Families *)

Lemma indexOf_empty key : Js.indexOf key "" = 0%Z.
Proof. unfold Js.indexOf. destruct key; reflexivity. Qed.

Lemma family_step_root file ret key member :
  family_step file "" ret (key, member) =
  if String.eqb key file || html key then ret else Obj.set key member ret.
Proof.
  unfold family_step. simpl. rewrite indexOf_empty. simpl.
  destruct (String.eqb key file); reflexivity.
Qed.

Lemma family_root_fold file fs acc k :
  List.NoDup (Obj.keys fs) ->
  Obj.get k (fold_left (family_step file "") fs acc) =
  if String.eqb k file || html k then Obj.get k acc
  else match Obj.get k fs with
       | Some member => Some member
       | None => Obj.get k acc
       end.
Proof.
  revert acc. induction fs as [|[k0 v0] fs IH]; intros acc Hnd.
  - simpl. destruct (String.eqb k file || html k); reflexivity.
  - inversion Hnd as [|? ? Hk0 Hnd']; subst.
    cbn [fold_left]. rewrite IH by exact Hnd'. rewrite family_step_root.
    cbn [Obj.get]. destruct (String.eqb_spec k0 k) as [->|Hne].
    + destruct (String.eqb k file || html k); [reflexivity|].
      rewrite get_set, String.eqb_refl.
      apply get_None_keys in Hk0. rewrite Hk0. reflexivity.
    + destruct (String.eqb k0 file || html k0); [reflexivity|].
      rewrite get_set. apply String.eqb_neq in Hne. rewrite Hne. reflexivity.
Qed.

(** C3, as amended. For a document at the root (its directory is [.])
    the family holds every other document of the set that is not an
    [.html] document, each under its whole key; it is empty only when
    the set has no such document. *)
Theorem family_of_root_document file fs k :
  Path.dirname file = "." ->
  List.NoDup (Obj.keys fs) ->
  Obj.get k (family file fs) =
  if String.eqb k file || html k then None else Obj.get k fs.
Proof.
  intros Hdir Hnd. unfold family. rewrite Hdir. simpl.
  rewrite family_root_fold by exact Hnd. simpl.
  destruct (String.eqb k file || html k); [reflexivity|].
  destruct (Obj.get k fs); reflexivity.
Qed.

Lemma family_of_root_document_witness :
  Obj.get "logo.png" (family "about.html" root_site) = Some 1%nat.
Proof.
  exact (family_of_root_document "about.html" root_site "logo.png"
           eq_refl ltac:(distinct_keys)).
Defined.

(** C3 as stated fails: the page at the root takes the image beside it
    into its family. *)
Lemma root_family_is_not_empty :
  Path.dirname "about.html" = "."
  /\ family "about.html" root_site = [("logo.png", 1%nat)].
Proof. split; reflexivity. Qed.

(** ** The scenario of [about.html] *)

Section About.
Variable E : Externals.

Lemma about_facts :
  html "about.html" = true /\ resolve "about.html" = "about".
Proof. split; vm_compute; reflexivity. Qed.

Lemma makeUnique_about fuel o s :
  default_resolver o -> indexFile o = None ->
  Obj.has "about/index.html" (files s) = false ->
  makeUnique E fuel o (VString "about") "about.html" s
  = (Val (VString "about/index.html"), s).
Proof.
  unfold default_resolver, makeUnique, defaultUniquePath. intros Hdef Hidx Hfree.
  assert (Hloop : defaultUniquePath_loop E fuel o "about" 0 "" s
                  = (Val (VString "about/index.html"), s)).
  { destruct fuel; cbn; unfold index_name, bind, gets, pure; rewrite Hidx;
      change (Path.join ["about" +:+ ""; "index.html"]) with "about/index.html";
      rewrite Hfree, !andb_false_r; reflexivity. }
  destruct (unique o); [exact Hloop|exact Hloop|contradiction].
Qed.

Lemma stage_about ls ppath s :
  match collect ls "about.html" [("about.html", 0%nat)] with
  | Some fam => stage ppath fam []
  | None => pure []
  end s = (Val [], s).
Proof.
  unfold collect. destruct (ls_relative ls) as [| |[|]| | |policy| | | |];
    try reflexivity.
  destruct (String.eqb policy "folder"); reflexivity.
Qed.

#[local] Arguments Obj.set : simpl never.
#[local] Arguments Obj.get : simpl never.
#[local] Arguments Obj.has : simpl never.
#[local] Arguments Obj.delete : simpl never.
#[local] Arguments html : simpl never.
#[local] Arguments resolve : simpl never.
#[local] Arguments Path.join : simpl never.
#[local] Arguments Js.ends_with : simpl never.
#[local] Arguments Js.unbackslash : simpl never.
#[local] Arguments String.eqb : simpl never.
#[local] Arguments prop : simpl never.
#[local] Arguments makeUnique : simpl never.
#[local] Arguments collect : simpl never.
#[local] Arguments stage : simpl never.
#[local] Arguments bind {A B} m f s /.
#[local] Arguments pure {A} a s /.
#[local] Arguments throw {A} e s /.
#[local] Arguments gets {A} f s /.
#[local] Arguments modify f s /.
#[local] Arguments read r s /.
#[local] Arguments write r k v s /.
#[local] Arguments field data k s /.
#[local] Arguments deref data s /.
#[local] Arguments flush s /.
#[local] Arguments relocate E cfg fuel file data s /.
#[local] Arguments findLinkset E cfg file s /.
#[local] Arguments replace_or_resolve E linkset data file s /.
#[local] Arguments replace E pattern data options s /.
#[local] Arguments relink E data moved s /.
#[local] Arguments contents_toString E v s /.

(** C4, as amended. A set that holds only [about.html], a document with
    a buffer for contents and no [permalink], under options with no
    pattern, no linksets, no filters, no [indexFile] and the default
    resolver: after the transform the document is under
    [about/index.html], its [path] is ["about/index.html"], its
    contents are as before, and [done] was called once, without an
    error. *)
Theorem about_html_moves o d c fuel :
  pattern o = None -> linksets o = [] ->
  fileFilter o = None -> ignoreFilter o = None ->
  indexFile o = None -> default_resolver o ->
  Obj.has "permalink" d = false -> prop "contents" d = VBuffer c ->
  let s' := run E (plugin E (OptionsObject o)) fuel [("about.html", 0%nat)]
              (configured [d]) in
  files s' = [("about/index.html", 0%nat)] /\
  (exists d', heap s' = [d'] /\ prop "path" d' = VString "about/index.html"
              /\ prop "contents" d' = VBuffer c) /\
  done_calls s' = [DoneOk].
Proof.
  destruct o as [pat dt rel lss idx uniq dfail slg cslug ff igf]. simpl.
  intros -> -> -> -> -> Hdef Hperm Hcont.
  destruct about_facts as (Hhtml & Hresolve).
  unfold run, call, transform, process, configured.
  destruct cslug as [f|]; cbn;
    change (Obj.get "about.html" [("about.html", 0%nat)]) with (Some 0%nat); cbn.
  1: set (d1 := Obj.set "slug" _ d).
  1: assert (Hperm1 : Obj.has "permalink" d1 = false)
       by (unfold d1; rewrite has_set; exact Hperm).
  1: assert (Hcont1 : prop "contents" d1 = VBuffer c)
       by (unfold d1; rewrite prop_set; exact Hcont).
  1: clearbody d1; clear Hperm Hcont; rename Hperm1 into Hperm, Hcont1 into Hcont.
  all: rewrite Hhtml; cbn;
    rewrite (prop_absent _ _ Hperm); cbn; rewrite Hperm; cbn; rewrite Hresolve;
    (rewrite makeUnique_about; [|exact Hdef|reflexivity|reflexivity]);
    rewrite stage_about; cbn;
    change (if "about" =? "." then "" else Js.unbackslash "about") with "about";
    rewrite prop_set, String.eqb_refl; cbn;
    change (Js.ends_with "about" "html") with false; cbn;
    rewrite !prop_set; change ("path" =? "contents") with false; cbn;
    rewrite Hcont; cbn;
    (split; [reflexivity|]); (split; [|reflexivity]);
    eexists; (split; [reflexivity|]);
    rewrite !prop_set; split; reflexivity.
Qed.

End About.

Lemma about_html_moves_witness :
  let s' := run stand_in (plugin stand_in (OptionsObject empty_options)) 0
              [("about.html", 0%nat)] (configured [document "About" []]) in
  files s' = [("about/index.html", 0%nat)] /\
  (exists d', heap s' = [d'] /\ prop "path" d' = VString "about/index.html"
              /\ prop "contents" d' = VBuffer "About") /\
  done_calls s' = [DoneOk].
Proof.
  apply (about_html_moves stand_in empty_options (document "About" []) "About" 0);
    first [reflexivity | exact I].
Defined.

(** C4 as stated fails: the [path] of [about.html] is not ["about"]. *)
Lemma about_path_is_not_about :
  run stand_in (plugin stand_in OptionsNone) 0 [("about.html", 0%nat)]
    (configured [document "About" []])
  = {| heap := [document "About" [("path", VString "about/index.html")]];
       files := [("about/index.html", 0%nat)];
       dupes := []; done_calls := [DoneOk]; immediates := 0; charmap := [] |}.
Proof. vm_compute. reflexivity. Qed.

(** ** Pending moves *)

(** The loop of [flush] over the staged entries. *)
Lemma flush_entries (l : Obj.t ref) s :
  List.NoDup (Obj.keys l) ->
  exists s',
    for_each
      (fun dupe =>
         modify (fun s => set_files (Obj.set (fst dupe) (snd dupe) (files s)) s))
      l s = (Val tt, s') /\
    s' = set_files (files s') s /\
    forall k, Obj.get k (files s') =
              match Obj.get k l with
              | Some d => Some d
              | None => Obj.get k (files s)
              end.
Proof.
  revert s. induction l as [|[k0 v0] l IH]; intros s Hnd; simpl.
  - exists s. split; [reflexivity|]. split; [destruct s; reflexivity|reflexivity].
  - inversion Hnd as [|? ? Hk0 Hnd']; subst.
    destruct (IH (set_files (Obj.set k0 v0 (files s)) s) Hnd')
      as (s' & Hrun & Hs' & Hget).
    exists s'. unfold bind, modify. simpl. split; [exact Hrun|]. split.
    + rewrite Hs' at 1. reflexivity.
    + intros k. rewrite Hget. simpl. rewrite get_set.
      destruct (String.eqb_spec k0 k) as [->|Hne]; [|reflexivity].
      apply get_None_keys in Hk0. rewrite Hk0. reflexivity.
Qed.

(** C7, as amended. The flush writes every staged key, whatever is
    under it and whatever [unique] and [duplicatesFail] are, which it
    does not read: after it a staged key holds the staged document, and
    every other key holds what it held. *)
Theorem flush_overwrites s :
  List.NoDup (Obj.keys (dupes s)) ->
  exists s',
    flush s = (Val tt, s') /\
    dupes s' = dupes s /\
    forall k, Obj.get k (files s') =
              match Obj.get k (dupes s) with
              | Some staged => Some staged
              | None => Obj.get k (files s)
              end.
Proof.
  intros Hnd.
  destruct (flush_entries (dupes s) s Hnd) as (s' & Hrun & Hs' & Hget).
  exists s'. unfold flush, bind, gets. split; [exact Hrun|].
  split; [rewrite Hs'; reflexivity|exact Hget].
Qed.

Lemma flush_overwrites_witness :
  exists s',
    flush crowded_before_flush = (Val tt, s') /\
    dupes s' = dupes crowded_before_flush /\
    forall k, Obj.get k (files s') =
              match Obj.get k (dupes crowded_before_flush) with
              | Some staged => Some staged
              | None => Obj.get k (files crowded_before_flush)
              end.
Proof. apply flush_overwrites. simpl. distinct_keys. Defined.

(** C7 as stated fails. In the crowded build, with [unique] and
    [duplicatesFail] both on, [b/pic.png] is a document of its own: it
    is not moved and is not of the family of the post. The flush puts
    the post's image in its place, and no error is reported. *)
Lemma flush_overwrites_an_unrelated_document :
  let s' := run stand_in (plugin stand_in (OptionsObject strict_options)) 0
              crowded_site (configured crowded_documents) in
  Obj.get "b/pic.png" crowded_site = Some 2%nat
  /\ family "a/post.html" crowded_site = [("/pic.png", 1%nat)]
  /\ Obj.get "b/pic.png" (files s') = Some 1%nat
  /\ files s' = [("a/pic.png", 1%nat); ("b/pic.png", 1%nat); ("b/index.html", 0%nat)]
  /\ done_calls s' = [DoneOk].
Proof. vm_compute. repeat split; reflexivity. Qed.

Example crowded_before_flush_is_reached :
  let cfg := plugin stand_in (OptionsObject strict_options) in
  snd (for_each (process stand_in cfg 0) (Obj.keys crowded_site)
         (set_immediates 1 (set_files crowded_site (configured crowded_documents))))
  = crowded_before_flush.
Proof. vm_compute. reflexivity. Qed.

Section Calls.
Variable E : Externals.

Lemma transform_dupes_grow cfg fuel : steps dupes_grow (transform E cfg fuel).
Proof.
  apply steps_transform; unfold dupes_grow; simpl; auto.
  intros s k v k' Hk'. rewrite has_set, Hk'. apply orb_true_r.
Qed.

Lemma for_each_process_dupes_wf cfg fuel keys :
  steps dupes_wf (for_each (process E cfg fuel) keys).
Proof.
  apply steps_for_each; unfold dupes_wf; auto.
  intros file. apply steps_process; unfold dupes_wf; simpl; auto.
  intros s k v. apply keys_set_NoDup.
Qed.

(** C5, as amended. [dupes] belongs to the configured transform, not to
    a call: it is empty when [plugin] returns, a call only adds to it,
    a call that returns has written every key staged so far, by this
    call or by an earlier one, into its [files], and nothing empties it
    when the call ends. *)
Theorem dupes_outlive_the_call cfg fuel fs s r s' :
  List.NoDup (Obj.keys (dupes s)) ->
  call E cfg fuel fs s = (r, s') ->
  (forall h, dupes (configured h) = []) /\
  (forall k, Obj.has k (dupes s) = true -> Obj.has k (dupes s') = true) /\
  (r = Val tt ->
   forall k, Obj.has k (dupes s') = true ->
             Obj.get k (files s') = Obj.get k (dupes s')) /\
  dupes (event_loop s') = dupes s'.
Proof.
  intros Hnd Hcall. unfold call in Hcall.
  split; [reflexivity|]. split; [|split; [|reflexivity]].
  - apply (transform_dupes_grow _ _ _ _ _ Hcall).
  - intros -> k Hk. unfold transform in Hcall.
    run_bind Hcall. run_bind Hcall. run_bind Hcall.
    unfold setImmediate_done, modify in Hrun. inversion Hrun; subst; clear Hrun.
    unfold gets in Hrun0. inversion Hrun0; subst; clear Hrun0.
    apply for_each_process_dupes_wf in Hrun1. simpl in Hrun1.
    destruct (flush_entries (dupes s2) s2 (Hrun1 Hnd)) as (s3 & Hflush & Hs3 & Hget).
    unfold flush, bind, gets in Hcall. rewrite Hflush in Hcall.
    inversion Hcall; subst s3; clear Hcall.
    assert (Hdupes : dupes s' = dupes s2) by (rewrite Hs3; reflexivity).
    rewrite Hget, Hdupes. unfold Obj.has in Hk. rewrite Hdupes in Hk.
    destruct (Obj.get k (dupes s2)); [reflexivity|discriminate].
Qed.

End Calls.

Lemma dupes_outlive_the_call_witness :
  (forall h, dupes (configured h) = []) /\
  (forall k, Obj.has k (dupes first_build) = true ->
             Obj.has k (dupes (snd second_call)) = true) /\
  (Val tt = Val tt ->
   forall k, Obj.has k (dupes (snd second_call)) = true ->
             Obj.get k (files (snd second_call)) = Obj.get k (dupes (snd second_call))) /\
  dupes (event_loop (snd second_call)) = dupes (snd second_call).
Proof.
  apply (dupes_outlive_the_call stand_in (plugin stand_in OptionsNone) 0
           [("other.html", 2%nat)] first_build (Val tt) (snd second_call)).
  - vm_compute. distinct_keys.
  - vm_compute. reflexivity.
Defined.

(** C5 as stated fails. The blog build leaves the image staged, and the
    next call of the same transform, on a set that holds only
    [other.html], starts with it and writes it into that set. *)
Lemma dupes_are_shared_between_calls :
  dupes first_build = [("blog/post/post.png", 1%nat)]
  /\ files (run stand_in (plugin stand_in OptionsNone) 0 [("other.html", 2%nat)]
              first_build)
     = [("other/index.html", 2%nat); ("blog/post/post.png", 1%nat)].
Proof. vm_compute. split; reflexivity. Qed.

(** ** Pattern or fallback *)

Section Patterns.
Variable E : Externals.







End Patterns.




(** ** The examples and the libraries *)

(** The builds of the examples that have no clash come out the same
    with any libraries and any host in place of the stand-ins. *)
Lemma examples_reach_no_library (E : Externals) :
  run E (plugin E OptionsNone) 0 [("about.html", 0%nat)]
    (configured [document "About" []])
  = run stand_in (plugin stand_in OptionsNone) 0 [("about.html", 0%nat)]
      (configured [document "About" []])
  /\ run E (plugin E OptionsNone) 0 blog_site (configured blog_documents)
     = first_build
  /\ run E (plugin E OptionsNone) 0 [("other.html", 2%nat)] first_build
     = run stand_in (plugin stand_in OptionsNone) 0 [("other.html", 2%nat)] first_build
  /\ run E (plugin E (OptionsObject strict_options)) 0 crowded_site
       (configured crowded_documents)
     = run stand_in (plugin stand_in (OptionsObject strict_options)) 0 crowded_site
         (configured crowded_documents)
  /\ run E (plugin E (OptionsString "blog/my-post")) 0 blog_site
       (configured blog_documents)
     = run stand_in (plugin stand_in (OptionsString "blog/my-post")) 0 blog_site
         (configured blog_documents).
Proof. vm_compute. repeat split; reflexivity. Qed.

(** The news build depends on the host in one place: the key the
    clashing page is stored under is the text of what [done] returned. *)
Lemma news_build_with_any_library (E : Externals) :
  done_result E = VUndefined ->
  run E (plugin E (OptionsObject news_options)) 0 news_site
    (configured news_documents)
  = run stand_in (plugin stand_in (OptionsObject news_options)) 0 news_site
      (configured news_documents).
Proof.
  destruct E as [slugify_E format_E toString_E RegExp_E result_E]. simpl.
  intros ->. vm_compute. reflexivity.
Qed.

(** * Further properties of the functions *)

(** ** Prefixes and slices *)

Lemma append_cons c a b : String c a +:+ b = String c (a +:+ b).
Proof. reflexivity. Qed.

Lemma prefix_app a b : String.prefix a (a +:+ b) = true.
Proof.
  induction a as [|c a IH].
  - destruct b; reflexivity.
  - rewrite append_cons. simpl.
    destruct (ascii_dec c c) as [_|Hc]; [exact IH|congruence].
Qed.

Lemma prefix_split a s :
  String.prefix a s = true -> s = a +:+ Js.slice_from (String.length a) s.
Proof.
  revert s. induction a as [|c a IH]; intros s H; simpl.
  - reflexivity.
  - destruct s as [|c' s]; simpl in H; [discriminate|].
    destruct (ascii_dec c c') as [->|]; [|discriminate].
    rewrite append_cons. simpl. f_equal. apply IH. exact H.
Qed.

Lemma slice_from_app a b : Js.slice_from (String.length a) (a +:+ b) = b.
Proof.
  induction a as [|c a IH]; [reflexivity|]. rewrite append_cons. exact IH.
Qed.

Lemma index_from_eq i needle hay :
  Js.index_from i needle hay =
  if String.prefix needle hay then Some i
  else match hay with
       | EmptyString => None
       | String _ rest => Js.index_from (S i) needle rest
       end.
Proof. destruct hay; reflexivity. Qed.

Lemma index_from_ge needle hay i j :
  Js.index_from i needle hay = Some j -> (i <= j)%nat.
Proof.
  revert i. induction hay as [|c hay IH]; intros i; rewrite index_from_eq.
  - destruct (String.prefix needle ""); intros H; [|discriminate].
    injection H as <-. apply Nat.le_refl.
  - destruct (String.prefix needle (String c hay)).
    + intros H. injection H as <-. apply Nat.le_refl.
    + intros H. apply IH in H. apply Nat.lt_le_incl. exact H.
Qed.

(** [key.indexOf(dir) === 0] is the prefix test. *)
Lemma indexOf_zero key dir :
  (Js.indexOf key dir =? 0)%Z = String.prefix dir key.
Proof.
  unfold Js.indexOf. rewrite index_from_eq.
  destruct (String.prefix dir key); [reflexivity|].
  destruct key as [|c key]; [reflexivity|].
  destruct (Js.index_from 1 dir key) as [j|] eqn:Hj; [|reflexivity].
  apply index_from_ge in Hj. destruct j; [inversion Hj|reflexivity].
Qed.

Lemma app_inj_l a b b' : a +:+ b = a +:+ b' -> b = b'.
Proof.
  induction a as [|c a IH]; intros H; [exact H|].
  rewrite !append_cons in H. inversion H. auto.
Qed.

(** The loop of [family] and of [folder], for any prefix. *)
Lemma family_fold file dir fs acc rel :
  List.NoDup (Obj.keys fs) ->
  Obj.get rel (fold_left (family_step file dir) fs acc) =
  if String.eqb (dir +:+ rel) file || html (dir +:+ rel) then Obj.get rel acc
  else match Obj.get (dir +:+ rel) fs with
       | Some member => Some member
       | None => Obj.get rel acc
       end.
Proof.
  revert acc. induction fs as [|[k0 v0] fs IH]; intros acc Hnd.
  - simpl. destruct (_ || _); reflexivity.
  - inversion Hnd as [|? ? Hk0 Hnd']; subst.
    cbn [fold_left]. rewrite IH by exact Hnd'. clear IH.
    unfold family_step. cbn [fst snd Obj.get]. rewrite indexOf_zero.
    destruct (String.eqb_spec k0 (dir +:+ rel)) as [->|Hne].
    + rewrite prefix_app, slice_from_app. cbn [negb].
      apply get_None_keys in Hk0. rewrite Hk0.
      destruct (String.eqb (dir +:+ rel) file); [reflexivity|].
      destruct (html (dir +:+ rel)); cbn [orb]; [reflexivity|].
      rewrite get_set, String.eqb_refl. reflexivity.
    + assert (Hother : forall acc', 
               (acc' = acc \/ 
                (String.prefix dir k0 = true /\
                 acc' = Obj.set (Js.slice_from (String.length dir) k0) v0 acc)) ->
               Obj.get rel acc' = Obj.get rel acc).
      { intros acc' [->|[Hpre ->]]; [reflexivity|].
        rewrite get_set.
        destruct (String.eqb_spec (Js.slice_from (String.length dir) k0) rel)
          as [Heq|]; [|reflexivity].
        exfalso. apply Hne. rewrite (prefix_split _ _ Hpre), Heq. reflexivity. }
      rewrite (Hother
        (if String.eqb k0 file then acc
         else if negb (String.prefix dir k0) then acc
         else if html k0 then acc
         else Obj.set (Js.slice_from (String.length dir) k0) v0 acc)).
      * reflexivity.
      * destruct (String.eqb k0 file); [now left|].
        destruct (String.prefix dir k0) eqn:Hpre; cbn [negb]; [|now left].
        destruct (html k0); [now left|]. right. split; reflexivity.
Qed.

(** X1. For a [files] object that has each key once, [family(file, files)]
    holds under a key [rel] the document that [files] holds under
    [dir + rel], where [dir] is the directory of [file] (the empty string
    for [.]), and nothing when [dir + rel] is [file] itself or a key with
    the extension [.html]. The directory is compared as a prefix of the
    key's text: [blog2/x.png] is in the family of [blog/post.html], under
    [2/x.png]. *)
Theorem family_members file fs rel :
  List.NoDup (Obj.keys fs) ->
  let dir := if String.eqb (Path.dirname file) "." then "" else Path.dirname file in
  Obj.get rel (family file fs) =
  if String.eqb (dir +:+ rel) file || html (dir +:+ rel) then None
  else Obj.get (dir +:+ rel) fs.
Proof.
  intros Hnd dir. unfold family. fold dir.
  rewrite family_fold by exact Hnd. cbn [Obj.get].
  destruct (_ || _); [reflexivity|].
  destruct (Obj.get (dir +:+ rel) fs); reflexivity.
Qed.

(** X2. For a [files] object that has each key once, [folder(file, files)]
    holds under a key [rel] the document that [files] holds under
    [sharedPath + rel], where [sharedPath] is
    [path.join(dir, basename, '/')], and nothing when that key is [file]
    itself or a key with the extension [.html]. *)
Theorem folder_members file fs rel :
  List.NoDup (Obj.keys fs) ->
  let dir := if String.eqb (Path.dirname file) "." then "" else Path.dirname file in
  let sharedPath :=
    Path.join [dir; Path.basename file (Path.extname file); "/"] in
  Obj.get rel (folder file fs) =
  if String.eqb (sharedPath +:+ rel) file || html (sharedPath +:+ rel) then None
  else Obj.get (sharedPath +:+ rel) fs.
Proof.
  intros Hnd dir sharedPath. unfold folder. fold dir. fold sharedPath.
  change (fold_left (folder_step file sharedPath) fs [])
    with (fold_left (family_step file sharedPath) fs []).
  rewrite family_fold by exact Hnd. cbn [Obj.get].
  destruct (_ || _); [reflexivity|].
  destruct (Obj.get (sharedPath +:+ rel) fs); reflexivity.
Qed.

Lemma family_members_witness :
  Obj.get "2/x.png" (family "blog/post.html" shelf) = Some 2
  /\ Obj.get "/other.html" (family "blog/post.html" shelf) = None
  /\ Obj.get "/post/a.css" (family "blog/post.html" shelf) = Some 3.
Proof.
  assert (Hnd : List.NoDup (Obj.keys shelf)) by (simpl; distinct_keys).
  split; [|split].
  - exact (family_members "blog/post.html" shelf "2/x.png" Hnd).
  - exact (family_members "blog/post.html" shelf "/other.html" Hnd).
  - exact (family_members "blog/post.html" shelf "/post/a.css" Hnd).
Defined.

Lemma folder_members_witness :
  Obj.get "a.css" (folder "blog/post.html" shelf) = Some 3
  /\ Obj.get "/post.png" (folder "blog/post.html" shelf) = None.
Proof.
  assert (Hnd : List.NoDup (Obj.keys shelf)) by (simpl; distinct_keys).
  split.
  - exact (folder_members "blog/post.html" shelf "a.css" Hnd).
  - exact (folder_members "blog/post.html" shelf "/post.png" Hnd).
Defined.

(** ** Placeholders *)

Lemma chars_str l : Js.chars (Js.str l) = l.
Proof. apply list_ascii_of_string_of_list_ascii. Qed.

Lemma forallb_rev {A : Type} (f : A -> bool) l :
  forallb f (rev l) = forallb f l.
Proof.
  induction l as [|a l IH]; simpl; [reflexivity|].
  rewrite forallb_app, IH. simpl. rewrite andb_true_r. apply andb_comm.
Qed.

Lemma close_words cur k :
  (forall acc, cur = Some acc -> forallb is_word acc = true) ->
  In (Placeholder k) (close cur) -> word k.
Proof.
  intros Hcur. destruct cur as [[|a acc]|]; simpl; try tauto.
  - intros [H|[]]; discriminate.
  - intros [H|[]]. injection H as <-. split.
    + intros Hempty. apply (f_equal Js.chars) in Hempty.
      rewrite chars_str in Hempty. simpl in Hempty.
      destruct (rev acc); discriminate.
    + rewrite chars_str.
      change (rev acc ++ [a]) with (rev acc ++ rev [a]).
      rewrite <- rev_app_distr, forallb_rev. apply Hcur. reflexivity.
Qed.

Lemma pieces_words s : forall cur k,
  (forall acc, cur = Some acc -> forallb is_word acc = true) ->
  In (Placeholder k) (pieces cur s) -> word k.
Proof.
  induction s as [|a s IH]; intros cur k Hcur; simpl.
  - apply close_words. exact Hcur.
  - assert (Hnew : forall acc : list ascii, Some [] = Some acc -> forallb is_word acc = true)
      by (intros acc [= <-]; reflexivity).
    assert (Hnone : forall acc : list ascii, None = Some acc -> forallb is_word acc = true)
      by (intros acc H; discriminate).
    assert (Hplain :
      In (Placeholder k)
         (if is_colon a then pieces (Some []) s else Text a :: pieces None s) ->
      word k).
    { destruct (is_colon a); [apply IH; exact Hnew|].
      intros [H|H]; [discriminate|]. apply (IH None); assumption. }
    destruct cur as [acc|]; [|exact Hplain].
    destruct (is_word a) eqn:Hword.
    + apply IH. intros acc' [= <-]. simpl. rewrite Hword. simpl.
      apply Hcur. reflexivity.
    + intros H. apply in_app_or in H. destruct H as [H|H].
      * apply (close_words (Some acc)); assumption.
      * apply Hplain. exact H.
Qed.

(** X3. Every name that [params(pattern)] returns is a non-empty text of
    word characters: letters, digits and the underscore. *)
Theorem params_are_words pattern k : In k (params pattern) -> word k.
Proof.
  unfold params. intros H. apply in_flat_map in H.
  destruct H as ([a|k'] & Hin & Hk); simpl in Hk; [contradiction|].
  destruct Hk as [->|[]].
  apply (pieces_words pattern None); [intros acc H; discriminate|exact Hin].
Qed.

Lemma params_are_words_witness : word "title".
Proof. apply (params_are_words ":date/:title.x" "title"). simpl. auto. Defined.

(** ** Documents the callback leaves alone *)

Section Skips.
Variable E : Externals.

Lemma field_untouched data k : steps untouched (field data k).
Proof.
  assert (forall s, untouched s s) by reflexivity.
  assert (forall s1 s2 s3, untouched s1 s2 -> untouched s2 s3 -> untouched s1 s3)
    by (unfold untouched; intros; congruence).
  unfold field. steps_tac.
Qed.

(** X4. With no [customSlug] function, the callback of the main loop
    leaves the state as it is for a key whose extension is not [.html],
    whatever the filters are and also when it throws; with no filter
    either, it returns normally. *)
Theorem other_documents_are_skipped cfg fuel file s :
  html file = false ->
  customSlug (cfg_options cfg) = None ->
  snd (process E cfg fuel file s) = s /\
  (fileFilter (cfg_options cfg) = None ->
   ignoreFilter (cfg_options cfg) = None ->
   process E cfg fuel file s = (Val tt, s)).
Proof.
  intros Hhtml Hslug. split.
  - assert (Hs : steps untouched (process E cfg fuel file)).
    { assert (forall s, untouched s s) by reflexivity.
      assert (forall s1 s2 s3, untouched s1 s2 -> untouched s2 s3 -> untouched s1 s3)
        by (unfold untouched; intros; congruence).
      unfold process. rewrite Hhtml, Hslug. cbn [negb]. steps_tac. }
    destruct (process E cfg fuel file s) as [r s'] eqn:Hrun.
    exact (Hs _ _ _ Hrun).
  - intros Hff Hif. unfold process. rewrite Hhtml, Hslug, Hff, Hif. reflexivity.
Qed.

(** X5. With no [customSlug] function, a document whose [permalink] is
    [false] is left as it is, under its key: the callback returns and the
    state is unchanged, whatever the filters are and whatever the key's
    extension is. *)
Theorem opted_out_documents_are_skipped cfg fuel file s r d :
  Obj.get file (files s) = Some r ->
  heap s !! r = Some d ->
  prop "permalink" d = VBool false ->
  customSlug (cfg_options cfg) = None ->
  process E cfg fuel file s = (Val tt, s).
Proof.
  intros Hfile Hheap Hperm Hslug. unfold process. rewrite Hslug.
  unfold bind, gets, field, deref, read, pure, bind. rewrite Hfile.
  destruct (fileFilter (cfg_options cfg)); destruct (ignoreFilter (cfg_options cfg));
    rewrite ?Hheap; cbn.
  all: repeat match goal with
         | |- context [negb ?b] => destruct b; cbn; try reflexivity
         end.
  all: destruct (html file); cbn; try reflexivity; rewrite ?Hheap, ?Hperm; reflexivity.
Qed.

End Skips.

Lemma other_documents_are_skipped_witness :
  process stand_in (plugin stand_in OptionsNone) 0 "logo.png"
    (site root_site root_documents)
  = (Val tt, site root_site root_documents).
Proof.
  exact (proj2 (other_documents_are_skipped stand_in (plugin stand_in OptionsNone) 0
                  "logo.png" (site root_site root_documents) eq_refl eq_refl)
           eq_refl eq_refl).
Defined.

Lemma opted_out_documents_are_skipped_witness :
  process stand_in (plugin stand_in OptionsNone) 0 "a.html"
    (site [("a.html", 0)] hidden_documents)
  = (Val tt, site [("a.html", 0)] hidden_documents).
Proof.
  exact (opted_out_documents_are_skipped stand_in (plugin stand_in OptionsNone) 0
           "a.html" (site [("a.html", 0)] hidden_documents) 0
           (document "A" [("permalink", VBool false)])
           eq_refl eq_refl eq_refl eq_refl).
Defined.

(** ** The two filters *)

Lemma bind_ext {A B : Type} (m m' : M A) (k k' : A -> M B) s :
  m s = m' s -> (forall a s1, k a s1 = k' a s1) -> bind m k s = bind m' k' s.
Proof.
  intros Hm Hk. unfold bind. rewrite Hm.
  destruct (m' s) as [[a|e] s1]; [apply Hk|reflexivity].
Qed.

Section Filters.
Variable E : Externals.

Lemma defaultUniquePath_loop_without_fileFilter fuel o targetPath counter postfix s :
  defaultUniquePath_loop E fuel (without_fileFilter o) targetPath counter postfix s
  = defaultUniquePath_loop E fuel o targetPath counter postfix s.
Proof.
  revert counter postfix s.
  induction fuel as [|fuel IH]; intros counter postfix s; simpl.
  - reflexivity.
  - apply bind_ext; [reflexivity|]. intros fs s1.
    change (index_name (without_fileFilter o)) with (index_name o).
    destruct (duplicatesFail o && _); [reflexivity|].
    change (unique_truthy (without_fileFilter o)) with (unique_truthy o).
    destruct (unique_truthy o && _); [apply IH|reflexivity].
Qed.

Lemma makeUnique_without_fileFilter fuel o ppath file s :
  makeUnique E fuel (without_fileFilter o) ppath file s
  = makeUnique E fuel o ppath file s.
Proof.
  unfold makeUnique, defaultUniquePath. cbn [unique without_fileFilter].
  destruct (unique o); try reflexivity;
    apply defaultUniquePath_loop_without_fileFilter.
Qed.

Lemma relocate_without_fileFilter cfg fuel file data s :
  relocate E (config_without_fileFilter cfg) fuel file data s
  = relocate E cfg fuel file data s.
Proof.
  unfold relocate.
  apply bind_ext; [reflexivity|]. intros d s1.
  apply bind_ext; [reflexivity|]. intros ls s2.
  apply bind_ext; [reflexivity|]. intros ppath s3.
  apply bind_ext; [reflexivity|]. intros fs s4.
  apply bind_ext; [apply makeUnique_without_fileFilter|]. intros out s5.
  reflexivity.
Qed.

Lemma field_outcome data k s :
  (exists v, field data k s = (Val v, s)) \/ (exists e, field data k s = (Exc e, s)).
Proof.
  unfold field, bind, deref, read, pure, throw.
  destruct data as [r|]; [|right; eauto].
  destruct (heap s !! r); [left|right]; eauto.
Qed.

(** A test on [data.path] whose outcome is not used. *)
Lemma unused_test {B : Type} data (F : value -> bool) (X : M B) s :
  (forall e, field data "path" s = (Exc e, s) -> X s = (Exc e, s)) ->
  bind (bind (field data "path") (fun path => pure (F path))) (fun _ => X) s = X s.
Proof.
  intros HX. destruct (field_outcome data "path" s) as [[v Hv]|[e He]].
  - unfold bind, pure. rewrite Hv. reflexivity.
  - unfold bind, pure. rewrite He. symmetry. apply HX. exact He.
Qed.

(** X6. When [ignoreFilter] is set, [fileFilter] decides nothing: the
    callback of the main loop returns the same result and the same state
    as with [fileFilter] taken out of the options. *)
Theorem ignoreFilter_overrides_fileFilter cfg fuel file s re :
  ignoreFilter (cfg_options cfg) = Some re ->
  process E cfg fuel file s
  = process E (config_without_fileFilter cfg) fuel file s.
Proof.
  intros Hif. unfold process.
  cbn [cfg_options config_without_fileFilter without_fileFilter
       fileFilter ignoreFilter customSlug].
  rewrite Hif.
  assert (Hrest : forall r s1,
    relocate E cfg fuel file r s1
    = relocate E (config_without_fileFilter cfg) fuel file r s1)
    by (intros; symmetry; apply relocate_without_fileFilter).
  apply bind_ext; [reflexivity|]. intros fs s1. cbv zeta.
  assert (Htail : forall s2,
    (let* inDirectories
       := let* path := field (Obj.get file fs) "path"
          in pure (negb (test re (to_string E path)))
     in if negb inDirectories then pure tt
        else do match customSlug (cfg_options cfg) with
                | Some f =>
                    let* r := deref (Obj.get file fs) in
                    let* d := read r in
                    write r "slug"
                      (if truthy (prop "slug" d) then prop "slug" d else f d)
                | None => pure tt
                end
             then if negb (html file) then pure tt
                  else let* permalink := field (Obj.get file fs) "permalink" in
                       if is_false permalink then pure tt
                       else let* r := deref (Obj.get file fs) in
                            relocate E cfg fuel file r) s2
    = (let* inDirectories
       := let* path := field (Obj.get file fs) "path"
          in pure (negb (test re (to_string E path)))
     in if negb inDirectories then pure tt
        else do match customSlug (cfg_options cfg) with
                | Some f =>
                    let* r := deref (Obj.get file fs) in
                    let* d := read r in
                    write r "slug"
                      (if truthy (prop "slug" d) then prop "slug" d else f d)
                | None => pure tt
                end
             then if negb (html file) then pure tt
                  else let* permalink := field (Obj.get file fs) "permalink" in
                       if is_false permalink then pure tt
                       else let* r := deref (Obj.get file fs) in
                            relocate E (config_without_fileFilter cfg) fuel file r) s2).
  { intros s2.
    apply bind_ext; [reflexivity|]. intros b2 s3.
    destruct (negb b2); [reflexivity|].
    apply bind_ext; [reflexivity|]. intros u s4.
    destruct (negb (html file)); [reflexivity|].
    apply bind_ext; [reflexivity|]. intros p s5.
    destruct (is_false p); [reflexivity|].
    apply bind_ext; [reflexivity|]. intros r s6. apply Hrest. }
  destruct (fileFilter (cfg_options cfg)) as [re1|].
  - etransitivity; [apply unused_test|exact (Htail s1)].
    intros e He. unfold bind. rewrite He. reflexivity.
  - exact (Htail s1).
Qed.

End Filters.

Lemma ignoreFilter_overrides_fileFilter_witness :
  process stand_in (plugin stand_in (OptionsObject filtered_options)) 0 "about.html"
    (site root_site root_documents)
  = process stand_in
      (config_without_fileFilter (plugin stand_in (OptionsObject filtered_options)))
      0 "about.html" (site root_site root_documents).
Proof.
  exact (ignoreFilter_overrides_fileFilter stand_in
           (plugin stand_in (OptionsObject filtered_options)) 0 "about.html"
           (site root_site root_documents) (new_RegExp stand_in "draft") eq_refl).
Defined.

(** ** The default resolver *)

Section Resolver.
Variable E : Externals.

Lemma defaultUniquePath_loop_eq fuel o targetPath counter postfix :
  defaultUniquePath_loop E fuel o targetPath counter postfix =
  let target := Path.join [targetPath +:+ postfix; index_name o] in
  let* fs := gets files in
  if duplicatesFail o && Obj.has target fs then
    done E (DoneError ("Permalinks: Clash with another target file " +:+ target))
  else if unique_truthy o && Obj.has target fs then
    match fuel with
    | O => throw Diverges
    | S fuel' =>
        defaultUniquePath_loop E fuel' o targetPath (S counter)
          ("-" +:+ Js.of_nat (S counter))
    end
  else pure (VString target).
Proof. destruct fuel; reflexivity. Qed.

(** X7. With [duplicatesFail] off and [unique] truthy, the loop of
    [defaultUniquePath], entered in round [counter], returns the candidate
    of the first round [n] whose key is free, when the candidates of the
    rounds from [counter] to [n - 1] are taken and the fuel covers the
    [n - counter] further rounds; the state is unchanged. The candidate of
    round 0 is [path.join(targetPath, indexFile || 'index.html')], that of
    round [n] has [-n] appended to [targetPath]. *)
Theorem unique_takes_the_first_free_candidate fuel o targetPath s : forall counter n,
  duplicatesFail o = false ->
  unique_truthy o = true ->
  (counter <= n)%nat ->
  (n - counter <= fuel)%nat ->
  (forall m, (counter <= m < n)%nat ->
             Obj.has (candidate o targetPath m) (files s) = true) ->
  Obj.has (candidate o targetPath n) (files s) = false ->
  defaultUniquePath_loop E fuel o targetPath counter (postfix_of counter) s
  = (Val (VString (candidate o targetPath n)), s).
Proof.
  induction fuel as [|fuel IH]; intros counter n Hfail Huniq Hle Hfuel Htaken Hfree;
    rewrite defaultUniquePath_loop_eq; cbv zeta; unfold bind, gets;
    fold (candidate o targetPath counter); rewrite Hfail, Huniq; cbn [andb].
  - assert (n = counter) by lia. subst n. rewrite Hfree. reflexivity.
  - destruct (Nat.eq_dec n counter) as [->|Hne].
    + rewrite Hfree. reflexivity.
    + rewrite Htaken by lia.
      change ("-" +:+ Js.of_nat (S counter)) with (postfix_of (S counter)).
      apply IH; try assumption; try lia.
      intros m Hm. apply Htaken. lia.
Qed.

(** X8. With [duplicatesFail] on, [defaultUniquePath] looks at the first
    candidate only: when its key is taken it calls [done] with the clash
    message and returns what [done] returned, when it is free it returns
    it. [unique] plays no part and the result does not depend on the
    fuel. *)
Theorem duplicatesFail_comes_before_unique fuel o targetPath s :
  duplicatesFail o = true ->
  defaultUniquePath E fuel o targetPath s =
  if Obj.has (candidate o (to_string E targetPath) 0) (files s)
  then (Val (done_result E),
        set_done_calls
          (done_calls s ++
           [DoneError ("Permalinks: Clash with another target file "
                       +:+ candidate o (to_string E targetPath) 0)]) s)
  else (Val (VString (candidate o (to_string E targetPath) 0)), s).
Proof.
  intros Hfail. unfold defaultUniquePath.
  rewrite defaultUniquePath_loop_eq. cbv zeta. unfold bind, gets.
  change (Path.join [to_string E targetPath +:+ ""; index_name o])
    with (candidate o (to_string E targetPath) 0).
  rewrite Hfail. cbn [andb].
  destruct (Obj.has _ (files s)); [reflexivity|].
  rewrite andb_false_r. reflexivity.
Qed.

(** Under [unique] a key the resolver returns without a report is not
    a key of [files]. *)
Lemma defaultUniquePath_loop_free fuel o targetPath s : forall counter postfix v s',
  unique_truthy o = true ->
  defaultUniquePath_loop E fuel o targetPath counter postfix s = (Val v, s') ->
  done_calls s' = done_calls s ->
  exists target, v = VString target /\ Obj.has target (files s) = false.
Proof.
  induction fuel as [|fuel IH]; intros counter postfix v s' Huniq;
    rewrite defaultUniquePath_loop_eq; cbv zeta; unfold bind, gets, done, bind,
      modify, pure, throw; rewrite Huniq; cbn [andb];
    destruct (duplicatesFail o); cbn [andb];
    destruct (Obj.has _ (files s)) eqn:Hhas;
    try (intros H; inversion H; subst; clear H; cbn;
         first [ intros Hcalls; exfalso; revert Hcalls; clear;
                 generalize (done_calls s); intros l Hl;
                 apply (f_equal (@length _)) in Hl; rewrite length_app in Hl;
                 simpl in Hl; lia
               | intros _; eexists; split; [reflexivity|assumption] ]).
  all: try discriminate.
  all: intros H Hcalls; eapply IH; eassumption.
Qed.

End Resolver.

Lemma unique_takes_the_first_free_candidate_witness :
  defaultUniquePath_loop stand_in 5 numbered_options "about" 0 (postfix_of 0)
    (site numbered_site numbered_documents)
  = (Val (VString "about-2/index.html"), site numbered_site numbered_documents).
Proof.
  apply (unique_takes_the_first_free_candidate stand_in 5 numbered_options "about"
           (site numbered_site numbered_documents) 0 2).
  - reflexivity.
  - reflexivity.
  - lia.
  - simpl. lia.
  - intros m Hm. destruct m as [|[|m]]; [reflexivity|reflexivity|lia].
  - reflexivity.
Defined.

Lemma duplicatesFail_comes_before_unique_witness :
  defaultUniquePath stand_in 0 strict_options (VString "b") crowded_before_flush
  = (Val VUndefined,
     set_done_calls
       [DoneError "Permalinks: Clash with another target file b/index.html"]
       crowded_before_flush).
Proof.
  exact (duplicatesFail_comes_before_unique stand_in 0 strict_options (VString "b")
           crowded_before_flush eq_refl).
Defined.

(** ** What a relocation does to [files] *)

Section Renames.
Variable E : Externals.

(** A relocation that runs to its end has asked the resolver once, in a
    state with the [files] and calls it started with, and has then
    replaced the old key by the resolver's answer. *)
Lemma relocate_files cfg fuel file data s s' :
  relocate E cfg fuel file data s = (Val tt, s') ->
  exists ppath out s3 s4,
    same_files_calls s s3 /\
    makeUnique E fuel (cfg_options cfg) ppath file s3 = (Val out, s4) /\
    done_calls s' = done_calls s4 /\
    files s4 = files s3 /\
    files s' = Obj.set (to_string E out) data (Obj.delete file (files s)).
Proof.
  intros H. unfold relocate in H.
  run_bind H. frame Hrun.
  run_bind H. frame Hrun0.
  run_bind H. frame Hrun1.
  run_bind H. frame Hrun2.
  run_bind H.
  assert (Hfiles : files s4 = files s3).
  { assert (St : steps (fun s s' => files s' = files s)
                   (makeUnique E fuel (cfg_options cfg)
                      (if Obj.has "permalink" a && negb (is_false (prop "permalink" a))
                       then prop "permalink" a else VString a1) file)).
    { apply steps_makeUnique; [reflexivity|intros; congruence|reflexivity]. }
    exact (St _ _ _ Hrun3). }
  run_bind H. frame Hrun4.
  run_bind H. frame Hrun5.
  run_bind H. frame Hrun6.
  run_bind H. frame Hrun7.
  run_bind H. frame Hrun8.
  run_bind H. frame Hrun9.
  unfold modify in H. inversion H; subst s'; clear H. cbn [files done_calls set_files].
  eexists _, a3, s3, s4. unpack.
  split; [split; congruence|]. split; [exact Hrun3|].
  split; [congruence|]. split; [exact Hfiles|].
  do 2 f_equal. congruence.
Qed.

(** X9. With [unique] set to [true], a callback that runs to its end
    without a call of [done] overwrites nothing: every key of [files]
    other than the callback's own still holds the document it held. *)
Theorem unique_keeps_other_documents cfg fuel file s s' :
  unique (cfg_options cfg) = UniqueOn ->
  process E cfg fuel file s = (Val tt, s') ->
  done_calls s' = done_calls s ->
  forall k r, k <> file ->
    Obj.get k (files s) = Some r -> Obj.get k (files s') = Some r.
Proof.
  intros Huniq H Hcalls k r Hk Hget. unfold process in H.
  run_bind H. unfold gets in Hrun. inversion Hrun; subst a s0; clear Hrun.
  run_bind H. frame Hrun.
  run_bind H. frame Hrun0.
  destruct (negb a0).
  { inversion H; subst. unpack. congruence. }
  run_bind H. frame Hrun1.
  destruct (negb (html file)).
  { inversion H; subst. unpack. congruence. }
  run_bind H. frame Hrun2.
  destruct (is_false a2).
  { inversion H; subst. unpack. congruence. }
  run_bind H. frame Hrun3.
  apply relocate_files in H.
  destruct H as (ppath & out & s6 & s7 & Hsame & Hmake & Hc & Hf & Hfiles).
  unpack.
  unfold makeUnique in Hmake. rewrite Huniq in Hmake.
  apply defaultUniquePath_loop_free in Hmake;
    [|unfold unique_truthy; rewrite Huniq; reflexivity|congruence].
  destruct Hmake as (target & -> & Hfree).
  rewrite Hfiles. cbn [to_string]. rewrite get_set, get_delete.
  assert (Hs : files s6 = files s) by congruence.
  rewrite Hs in Hfree.
  assert (Hs4 : files s4 = files s) by congruence. rewrite Hs4.
  destruct (String.eqb_spec target k) as [->|_].
  - unfold Obj.has in Hfree. rewrite Hget in Hfree. discriminate.
  - destruct (String.eqb_spec file k); [congruence|exact Hget].
Qed.

End Renames.

Lemma unique_keeps_other_documents_witness :
  Obj.get "about/index.html"
    (files (snd (process stand_in (plugin stand_in (OptionsObject numbered_options)) 5
                   "about.html" (site numbered_site numbered_documents))))
  = Some 1.
Proof.
  apply (unique_keeps_other_documents stand_in
           (plugin stand_in (OptionsObject numbered_options)) 5 "about.html"
           (site numbered_site numbered_documents)).
  - reflexivity.
  - vm_compute. reflexivity.
  - vm_compute. reflexivity.
  - discriminate.
  - reflexivity.
Defined.

(** ** The calls of [done] *)

Section Reports.
Variable E : Externals.
Variable o : options.

Lemma only_reports_refl s : only_reports o s s.
Proof.
  split; [reflexivity|]. exists []. rewrite app_nil_r. auto.
Qed.

Lemma only_reports_trans s1 s2 s3 :
  only_reports o s1 s2 -> only_reports o s2 s3 -> only_reports o s1 s3.
Proof.
  intros (Hi1 & e1 & Hc1 & Hf1 & Hn1) (Hi2 & e2 & Hc2 & Hf2 & Hn2).
  split; [congruence|]. exists (e1 ++ e2).
  split; [rewrite Hc2, Hc1, app_assoc; reflexivity|].
  split; [apply Forall_app; auto|].
  intros Hoff. rewrite (Hn1 Hoff), (Hn2 Hoff). reflexivity.
Qed.

Lemma only_reports_heap s h : only_reports o s (set_heap h s).
Proof.
  split; [reflexivity|]. exists []. cbn. rewrite app_nil_r. auto.
Qed.

Lemma only_reports_charmap s c : only_reports o s (set_charmap c s).
Proof.
  split; [reflexivity|]. exists []. cbn. rewrite app_nil_r. auto.
Qed.

Lemma only_reports_dupes s d : only_reports o s (set_dupes d s).
Proof.
  split; [reflexivity|]. exists []. cbn. rewrite app_nil_r. auto.
Qed.

Lemma only_reports_files s f : only_reports o s (set_files f s).
Proof.
  split; [reflexivity|]. exists []. cbn. rewrite app_nil_r. auto.
Qed.

Lemma only_reports_loop fuel targetPath : forall counter postfix,
  steps (only_reports o) (defaultUniquePath_loop E fuel o targetPath counter postfix).
Proof.
  induction fuel as [|fuel IH]; intros counter postfix s r s';
    rewrite defaultUniquePath_loop_eq; cbv zeta;
    unfold bind, gets, done, bind, modify, pure, throw;
    destruct (duplicatesFail o) eqn:Hfail; cbn [andb];
    destruct (Obj.has _ (files s)); cbn [andb];
    rewrite ?andb_false_r, ?andb_true_r;
    try destruct (unique_truthy o).
  all: try (intros H; inversion H; subst; clear H; apply only_reports_refl).
  all: try (intros H; inversion H; subst; clear H;
            split; [reflexivity|]; eexists; split; [reflexivity|];
            split; [repeat constructor|intros Hoff; congruence]).
  all: apply IH.
Qed.

Lemma only_reports_makeUnique fuel ppath file :
  steps (only_reports o) (makeUnique E fuel o ppath file).
Proof.
  unfold makeUnique, defaultUniquePath.
  destruct (unique o); try apply only_reports_loop.
  intros s r s' H. unfold bind, gets, pure in H. inversion H.
  apply only_reports_refl.
Qed.

Lemma only_reports_process cfg fuel file :
  cfg_options cfg = o ->
  steps (only_reports o) (process E cfg fuel file).
Proof.
  intros Ho.
  pose proof only_reports_refl as Hrefl.
  pose proof only_reports_trans as Htrans.
  pose proof only_reports_heap as Hheap.
  pose proof only_reports_charmap as Hcharmap.
  pose proof only_reports_dupes as Hdupes.
  pose proof only_reports_files as Hfiles.
  unfold process. steps_tac; rewrite ?Ho;
    auto using steps_find_match, steps_replace, steps_contents_toString,
      steps_stage, only_reports_makeUnique.
Qed.

Lemma done_calls_of_run_with cfg fuel fs s :
  cfg_options cfg = o ->
  exists errs,
    done_calls (run E cfg fuel fs s) = errs ++ [DoneOk] /\
    Forall is_error errs /\
    (duplicatesFail o = false -> errs = []).
Proof.
  intros Ho.
  pose proof only_reports_refl as Hrefl.
  pose proof only_reports_trans as Htrans.
  pose proof only_reports_files as Hfiles.
  assert (Hrest : steps (only_reports o)
            (let* fs := gets files in
             do for_each (process E cfg fuel) (Obj.keys fs) then flush)).
  { steps_tac.
    - apply steps_for_each; [assumption|assumption|].
      intros file. apply only_reports_process. exact Ho.
    - apply steps_for_each; [assumption|assumption|]. intros x. steps_tac. }
  unfold run, call.
  set (s0 := set_files fs (set_done_calls [] (set_immediates 0 s))).
  assert (Ht : transform E cfg fuel s0
               = (let* fs := gets files in
                  do for_each (process E cfg fuel) (Obj.keys fs) then flush)
                   (set_immediates (S (immediates s0)) s0)) by reflexivity.
  rewrite Ht. clear Ht.
  destruct ((let* fs := gets files in
             do for_each (process E cfg fuel) (Obj.keys fs) then flush)
              (set_immediates (S (immediates s0)) s0))
    as [r s'] eqn:Hrun.
  destruct (Hrest _ _ _ Hrun) as (Him & errs & Hcalls & Herrs & Hoff).
  exists errs. split; [|split; assumption].
  unfold event_loop. cbn [snd done_calls set_immediates set_done_calls].
  rewrite Hcalls, Him. reflexivity.
Qed.

End Reports.

(** X10. In a whole run, the call of the transform and then the callback
    it scheduled, [done] is called with clash messages only and then
    once, last, without argument; with [duplicatesFail] off it is called
    that one time only. This holds as well when the call throws. *)
Theorem done_calls_of_a_run E cfg fuel fs s :
  exists errs,
    done_calls (run E cfg fuel fs s) = errs ++ [DoneOk] /\
    Forall is_error errs /\
    (duplicatesFail (cfg_options cfg) = false -> errs = []).
Proof. exact (done_calls_of_run_with E (cfg_options cfg) cfg fuel fs s eq_refl). Qed.

(** ** The choice of a linkset *)

Section Linksets.
Variable E : Externals.

Lemma untouched_refl s : untouched s s.
Proof. reflexivity. Qed.

Lemma untouched_trans s1 s2 s3 :
  untouched s1 s2 -> untouched s2 s3 -> untouched s1 s3.
Proof. unfold untouched. congruence. Qed.

Lemma find_match_outcome lss d s r s' :
  find_match E lss d s = (r, s') ->
  s' = s /\ forall ls, r = Val (Some ls) -> In ls lss.
Proof.
  revert s r s'. induction lss as [|ls0 lss IH]; intros s r s'; simpl.
  - intros H. inversion H. split; [reflexivity|]. intros ls Hls; discriminate.
  - unfold bind.
    destruct (match_all E (ls_match ls0) d true s) as [[b|e] s1] eqn:Hm.
    + assert (Hs1 : s1 = s)
        by exact (steps_match_all E untouched untouched_refl untouched_trans
                    _ _ _ _ _ _ Hm).
      subst s1. destruct b.
      * intros H. inversion H. split; [reflexivity|].
        intros ls [= <-]. now left.
      * intros H. apply IH in H. destruct H as [Hs Hin]. split; [exact Hs|].
        intros ls Hls. right. apply Hin. exact Hls.
    + intros H. inversion H; subst.
      split; [|intros ls Hls; discriminate].
      exact (steps_match_all E untouched untouched_refl untouched_trans
               _ _ _ _ _ _ Hm).
Qed.

Lemma findLinkset_outcome cfg d s r s' :
  findLinkset E cfg d s = (r, s') ->
  s' = s /\
  forall ls, r = Val ls ->
    In ls (linksets (cfg_options cfg)) \/ ls = cfg_defaultLinkset cfg.
Proof.
  unfold findLinkset, bind.
  destruct (find_match E (linksets (cfg_options cfg)) d s) as [[[ls0|]|e] s1] eqn:Hf;
    apply find_match_outcome in Hf; destruct Hf as [-> Hin];
    intros H; inversion H; subst; split; try reflexivity.
  - intros ls [= <-]. left. apply Hin. reflexivity.
  - intros ls [= <-]. now right.
  - intros ls Hls. discriminate.
Qed.

(** X11. [findLinkset] changes no state, and a linkset it returns is one of
    the configured linksets or the default linkset. *)
Theorem findLinkset_returns_a_configured_linkset cfg d s r s' :
  findLinkset E cfg d s = (r, s') ->
  s' = s /\
  forall ls, r = Val ls ->
    In ls (linksets (cfg_options cfg)) \/ ls = cfg_defaultLinkset cfg.
Proof. apply findLinkset_outcome. Qed.

(** The rules of a linkset up to a string that fails its test. *)
Lemma match_all_string_throws passing key re more d str s :
  Forall (fun km => exists r, snd km = MRegExp r /\
                              test r (to_string E (prop (fst km) d)) = true)
         passing ->
  prop key d = VString str ->
  str <> "" ->
  test re str = false ->
  exists msg,
    match_all E (passing ++ (key, MRegExp re) :: more) d true s
    = (Exc (TypeError msg), s).
Proof.
  intros Hpass Hprop Hne Htest.
  induction Hpass as [|[k m] passing (r & Hm & Hr) _ IH]; simpl in *.
  - unfold bind, match_field. rewrite Hprop. cbn [to_string]. rewrite Htest.
    assert (Ht : truthy (VString str) = true).
    { destruct str; [congruence|reflexivity]. }
    rewrite Ht. unfold throw. eauto.
  - subst m. unfold bind at 1. unfold match_field. rewrite Hr.
    unfold pure at 1. exact IH.
Qed.

(** X12. When the rules of the first linkset pass up to a field for which
    the document has a non-empty string that fails the field's
    expression, [findLinkset] throws a [TypeError]: the string is asked
    whether it includes the expression. The state is unchanged. *)
Theorem failing_string_field_throws cfg ls rest passing key re more d str s :
  linksets (cfg_options cfg) = ls :: rest ->
  ls_match ls = passing ++ (key, MRegExp re) :: more ->
  Forall (fun km => exists r, snd km = MRegExp r /\
                              test r (to_string E (prop (fst km) d)) = true)
         passing ->
  prop key d = VString str ->
  str <> "" ->
  test re str = false ->
  exists msg, findLinkset E cfg d s = (Exc (TypeError msg), s).
Proof.
  intros Hlss Hmatch Hpass Hprop Hne Htest.
  destruct (match_all_string_throws passing key re more d str s
              Hpass Hprop Hne Htest) as (msg & Hthrow).
  exists msg. unfold findLinkset. rewrite Hlss. simpl.
  unfold bind at 1 2. rewrite Hmatch, Hthrow. reflexivity.
Qed.

End Linksets.

Lemma findLinkset_returns_a_configured_linkset_witness :
  In (compile_linkset stand_in posts_linkset)
     (linksets (cfg_options (plugin stand_in (OptionsObject linked_options))))
  \/ compile_linkset stand_in posts_linkset
     = cfg_defaultLinkset (plugin stand_in (OptionsObject linked_options)).
Proof.
  exact (proj2 (findLinkset_returns_a_configured_linkset stand_in
                  (plugin stand_in (OptionsObject linked_options)) post
                  (configured [post]) _ _ eq_refl)
           (compile_linkset stand_in posts_linkset) eq_refl).
Defined.

Lemma failing_string_field_throws_witness :
  exists msg,
    findLinkset stand_in (plugin stand_in (OptionsObject linked_options)) page
      (configured [page])
    = (Exc (TypeError msg), configured [page]).
Proof.
  apply (failing_string_field_throws stand_in
           (plugin stand_in (OptionsObject linked_options))
           (compile_linkset stand_in posts_linkset) [] []
           "collection" (new_RegExp stand_in "posts") [] page "pages").
  - reflexivity.
  - reflexivity.
  - constructor.
  - reflexivity.
  - discriminate.
  - reflexivity.
Defined.

(** ** When nothing is staged *)

Lemma steps_bind_with (R : state -> state -> Prop) {A B : Type} (P : A -> Prop)
    (m : M A) (k : A -> M B) :
  (forall s1 s2 s3, R s1 s2 -> R s2 s3 -> R s1 s3) ->
  steps R m ->
  (forall s a s', m s = (Val a, s') -> P a) ->
  (forall a, P a -> steps R (k a)) ->
  steps R (bind m k).
Proof.
  intros Htrans Hm HP Hk s r s' H. unfold bind in H.
  destruct (m s) as [[a|e] s1] eqn:Hms.
  - eapply Htrans; [eapply Hm; eassumption|].
    eapply (Hk a); [eapply HP; eassumption|eassumption].
  - inversion H; subst. eapply Hm; eassumption.
Qed.

(** As [steps_tac], with [tac] tried first on every goal. *)
Ltac steps_tac_with tac :=
  repeat first
    [ solve [tac]
    | apply steps_pure; assumption
    | apply steps_throw; assumption
    | apply steps_gets; assumption
    | apply steps_read; assumption
    | apply steps_deref; assumption
    | apply steps_bind; [assumption| |intros]
    | apply steps_modify; intros; solve [auto]
    | match goal with
      | |- steps _ (match ?x with _ => _ end) => destruct x
      | |- steps _ (if ?b then _ else _) => destruct b
      end ].

Section NothingStaged.
Variable E : Externals.

Lemma collect_None ls file fs : wants_family ls = false -> collect ls file fs = None.
Proof.
  unfold wants_family, collect.
  destruct (ls_relative ls) as [| |[|]| | |policy| | | |]; try reflexivity;
    try discriminate.
  intros ->. reflexivity.
Qed.

Lemma same_dupes_relocate cfg fuel file data :
  Forall (fun ls => wants_family ls = false) (linksets (cfg_options cfg)) ->
  wants_family (cfg_defaultLinkset cfg) = false ->
  steps same_dupes (relocate E cfg fuel file data).
Proof.
  intros Hall Hdefault.
  assert (Hrefl : forall s, same_dupes s s) by reflexivity.
  assert (Htrans : forall s1 s2 s3,
            same_dupes s1 s2 -> same_dupes s2 s3 -> same_dupes s1 s3)
    by (unfold same_dupes; intros; congruence).
  assert (Hheap : forall s h, same_dupes s (set_heap h s)) by reflexivity.
  assert (Hcharmap : forall s c, same_dupes s (set_charmap c s)) by reflexivity.
  assert (Hfiles : forall s f, same_dupes s (set_files f s)) by reflexivity.
  assert (Hcalls : forall s c, same_dupes s (set_done_calls c s)) by reflexivity.
  unfold relocate.
  apply steps_bind; [assumption|apply steps_read; assumption|]. intros d.
  apply (steps_bind_with same_dupes (fun ls => wants_family ls = false));
    [assumption| | |].
  - unfold findLinkset. steps_tac. apply steps_find_match; assumption.
  - intros s ls s' Hrun.
    destruct (findLinkset_outcome E cfg d s _ _ Hrun)
      as [_ Hin].
    destruct (Hin ls eq_refl) as [Hl| ->]; [|exact Hdefault].
    rewrite Forall_forall in Hall. apply Hall. rewrite list_elem_of_In. exact Hl.
  - intros ls Hls.
    apply steps_bind; [assumption| |].
    { unfold replace_or_resolve. steps_tac. apply steps_replace; assumption. }
    intros ppath. apply steps_bind; [assumption|apply steps_gets; assumption|].
    intros fs. cbv zeta. rewrite (collect_None ls file fs Hls).
    steps_tac;
      auto using steps_makeUnique, steps_contents_toString.
Qed.

Lemma same_dupes_process cfg fuel file :
  Forall (fun ls => wants_family ls = false) (linksets (cfg_options cfg)) ->
  wants_family (cfg_defaultLinkset cfg) = false ->
  steps same_dupes (process E cfg fuel file).
Proof.
  intros Hall Hdefault.
  pose proof (same_dupes_relocate cfg fuel file) as Hrel.
  assert (Hrefl : forall s, same_dupes s s) by reflexivity.
  assert (Htrans : forall s1 s2 s3,
            same_dupes s1 s2 -> same_dupes s2 s3 -> same_dupes s1 s3)
    by (unfold same_dupes; intros; congruence).
  assert (Hheap : forall s h, same_dupes s (set_heap h s)) by reflexivity.
  unfold process.
  steps_tac_with ltac:(apply Hrel; assumption).
Qed.

(** X13. When neither a configured linkset nor the default linkset has
    [relative] equal to [true] or to ['folder'], a call stages nothing:
    [dupes] is after the call what it was before. *)
Theorem no_family_policy_stages_nothing cfg fuel fs s :
  Forall (fun ls => wants_family ls = false) (linksets (cfg_options cfg)) ->
  wants_family (cfg_defaultLinkset cfg) = false ->
  dupes (snd (call E cfg fuel fs s)) = dupes s.
Proof.
  intros Hall Hdefault.
  assert (Hrefl : forall s, same_dupes s s) by reflexivity.
  assert (Htrans : forall s1 s2 s3,
            same_dupes s1 s2 -> same_dupes s2 s3 -> same_dupes s1 s3)
    by (unfold same_dupes; intros; congruence).
  assert (Hfiles : forall s f, same_dupes s (set_files f s)) by reflexivity.
  assert (Him : forall s n, same_dupes s (set_immediates n s)) by reflexivity.
  assert (Hs : steps same_dupes (transform E cfg fuel)).
  { unfold transform, setImmediate_done.
    steps_tac_with ltac:(apply steps_for_each;
                         [assumption|assumption|
                          intros; first [apply same_dupes_process; assumption
                                        | steps_tac]]). }
  unfold call.
  destruct (transform E cfg fuel _) as [r s'] eqn:Hrun.
  apply Hs in Hrun. exact Hrun.
Qed.

End NothingStaged.

Lemma no_family_policy_stages_nothing_witness :
  dupes (snd (call stand_in (plugin stand_in (OptionsObject news_options)) 0 news_site
                (configured news_documents)))
  = [].
Proof.
  apply (no_family_policy_stages_nothing stand_in
           (plugin stand_in (OptionsObject news_options)) 0 news_site
           (configured news_documents)).
  - constructor.
  - reflexivity.
Defined.

(** ** What the transform writes into the documents *)

Section Metadata.
Variable E : Externals.
Variable o : options.

Lemma keeps_metadata_refl s : keeps_metadata o s s.
Proof. split; [reflexivity|]. intros r d H. exists d. auto. Qed.

Lemma keeps_metadata_trans s1 s2 s3 :
  keeps_metadata o s1 s2 -> keeps_metadata o s2 s3 -> keeps_metadata o s1 s3.
Proof.
  intros [L1 H1] [L2 H2]. split; [congruence|].
  intros r d Hd. destruct (H1 r d Hd) as (d1 & Hd1 & K1).
  destruct (H2 r d1 Hd1) as (d2 & Hd2 & K2).
  exists d2. split; [exact Hd2|]. intros k Hk. rewrite K2, K1; auto.
Qed.

Lemma keeps_metadata_write r k v :
  written o k = true -> steps (keeps_metadata o) (write r k v).
Proof.
  intros Hk s res s' H. unfold write, bind, read, modify in H.
  destruct (heap s !! r) as [d|] eqn:Hd; inversion H; subst; clear H.
  - split; [cbn; apply length_insert|].
    intros r' d' Hd'. cbn. destruct (Nat.eq_dec r r') as [<-|Hne].
    + rewrite list_lookup_insert_eq by (eapply lookup_lt_Some; eassumption).
      exists (Obj.set k v d). split; [reflexivity|].
      intros k' Hk'. rewrite prop_set.
      destruct (String.eqb_spec k k') as [<-|_]; [congruence|].
      assert (Hsame : Some d = Some d')
        by (etransitivity; [symmetry; exact Hd|exact Hd']).
      injection Hsame as <-. reflexivity.
    + rewrite list_lookup_insert_ne by assumption. exists d'. auto.
  - apply keeps_metadata_refl.
Qed.

Lemma keeps_metadata_process cfg fuel file :
  cfg_options cfg = o -> steps (keeps_metadata o) (process E cfg fuel file).
Proof.
  intros Ho.
  pose proof keeps_metadata_refl as Hrefl.
  pose proof keeps_metadata_trans as Htrans.
  assert (Hcharmap : forall s c, keeps_metadata o s (set_charmap c s))
    by (intros; exact (keeps_metadata_refl _)).
  assert (Hdupes : forall s d, keeps_metadata o s (set_dupes d s))
    by (intros; exact (keeps_metadata_refl _)).
  assert (Hfiles : forall s f, keeps_metadata o s (set_files f s))
    by (intros; exact (keeps_metadata_refl _)).
  assert (Hcalls : forall s c, keeps_metadata o s (set_done_calls c s))
    by (intros; exact (keeps_metadata_refl _)).
  assert (Him : forall s n, keeps_metadata o s (set_immediates n s))
    by (intros; exact (keeps_metadata_refl _)).
  assert (Hheap : forall s, keeps_metadata o s (set_heap (heap s) s))
    by (intros; exact (keeps_metadata_refl _)).
  assert (Hmu : forall ppath, steps (keeps_metadata o) (makeUnique E fuel o ppath file)).
  { assert (Hloop : forall n tp c pf,
              steps (keeps_metadata o) (defaultUniquePath_loop E n o tp c pf)).
    { induction n as [|n IH]; intros tp c pf; simpl; unfold done; steps_tac;
        apply IH. }
    intros ppath. unfold makeUnique, defaultUniquePath. steps_tac; apply Hloop. }
  assert (Hst : forall ppath fam moved, steps (keeps_metadata o) (stage ppath fam moved)).
  { intros ppath fam. induction fam as [|[key member] fam IH]; intros moved; simpl;
      steps_tac. apply IH. }
  assert (Hrk : forall keys d ls ret,
             steps (keeps_metadata o) (replace_keys E keys d ls ret)).
  { intros keys d ls. induction keys as [|key keys IH]; intros ret; simpl;
      steps_tac; unfold slug_text; steps_tac; apply IH. }
  assert (Hfm : forall lss d, steps (keeps_metadata o) (find_match E lss d)).
  { intros lss d. induction lss as [|ls lss IH]; simpl; steps_tac; [|exact IH].
    generalize true. induction (ls_match ls) as [|[key m] fields IHf];
      intros sofar; simpl; steps_tac; unfold match_field; steps_tac; apply IHf. }
  unfold process, relocate, relink, findLinkset, replace_or_resolve, replace,
    contents_toString.
  rewrite Ho. cbv zeta.
  destruct (customSlug o) as [f|] eqn:Hcs.
  - steps_tac_with ltac:(first
      [ apply keeps_metadata_write; unfold written; rewrite ?Hcs; reflexivity
      | apply Hmu | apply Hst | apply Hrk | apply Hfm ]).
  - steps_tac_with ltac:(first
      [ apply keeps_metadata_write; unfold written; rewrite ?Hcs; reflexivity
      | apply Hmu | apply Hst | apply Hrk | apply Hfm ]).
Qed.

Lemma keeps_metadata_call cfg fuel fs s :
  cfg_options cfg = o -> keeps_metadata o s (snd (call E cfg fuel fs s)).
Proof.
  intros Ho.
  pose proof keeps_metadata_refl as Hrefl.
  pose proof keeps_metadata_trans as Htrans.
  assert (Hfiles : forall s f, keeps_metadata o s (set_files f s))
    by (intros; exact (keeps_metadata_refl _)).
  assert (Him : forall s n, keeps_metadata o s (set_immediates n s))
    by (intros; exact (keeps_metadata_refl _)).
  assert (Hs : steps (keeps_metadata o) (transform E cfg fuel)).
  { unfold transform, setImmediate_done, flush.
    steps_tac_with ltac:(apply steps_for_each;
                         [assumption|assumption|
                          intros; first [apply keeps_metadata_process; assumption
                                        | steps_tac]]). }
  unfold call.
  destruct (transform E cfg fuel _) as [r s'] eqn:Hrun.
  apply Hs in Hrun. exact Hrun.
Qed.

End Metadata.

(** X14. A call of the transform creates and drops no document, and every
    document keeps each property other than [path] and [contents], and
    other than [slug] when a [customSlug] function is configured. This
    holds as well when the call throws. *)
Theorem only_path_contents_and_slug_are_written E cfg fuel fs s :
  keeps_metadata (cfg_options cfg) s (snd (call E cfg fuel fs s)).
Proof. apply keeps_metadata_call. reflexivity. Qed.

(** ** The path a moved document is given *)

Lemma chars_app a b : Js.chars (a +:+ b) = Js.chars a ++ Js.chars b.
Proof.
  induction a as [|c a IH]; [reflexivity|].
  rewrite append_cons. cbn. f_equal. exact IH.
Qed.

Lemma str_app l l' : Js.str (l ++ l') = Js.str l +:+ Js.str l'.
Proof.
  induction l as [|c l IH]; [reflexivity|].
  cbn. rewrite append_cons. f_equal. exact IH.
Qed.

Lemma ends_with_app a b : Js.ends_with (a +:+ b) b = true.
Proof.
  unfold Js.ends_with. rewrite chars_app, rev_app_distr, str_app.
  apply prefix_app.
Qed.

Lemma append_assoc a b c : (a +:+ b) +:+ c = a +:+ (b +:+ c).
Proof.
  induction a as [|x a IH]; [reflexivity|].
  rewrite !append_cons. f_equal. exact IH.
Qed.

Lemma ends_with_longer a b c : Js.ends_with b c = true -> Js.ends_with (a +:+ b) c = true.
Proof.
  unfold Js.ends_with. rewrite chars_app, rev_app_distr, str_app.
  intros H. apply prefix_split in H. rewrite H.
  rewrite append_assoc. apply prefix_app.
Qed.

Lemma unbackslash_app a b :
  Js.unbackslash (a +:+ b) = Js.unbackslash a +:+ Js.unbackslash b.
Proof.
  induction a as [|c a IH]; [reflexivity|].
  rewrite append_cons. cbn. rewrite append_cons. f_equal. exact IH.
Qed.

Lemma unbackslash_idem a : Js.unbackslash (Js.unbackslash a) = Js.unbackslash a.
Proof.
  induction a as [|c a IH]; [reflexivity|].
  cbn. rewrite IH. f_equal.
  destruct (Ascii.eqb c Js.backslash) eqn:Hc; [reflexivity|]. now rewrite Hc.
Qed.

Lemma write_outcome r k v s res s' :
  write r k v s = (res, s') ->
  (heap s !! r = None /\ s' = s /\ exists e, res = Exc e) \/
  (exists d, heap s !! r = Some d /\ res = Val tt /\
             s' = set_heap (<[r := Obj.set k v d]> (heap s)) s /\
             heap s' !! r = Some (Obj.set k v d)).
Proof.
  unfold write, bind, read, modify. destruct (heap s !! r) as [d|] eqn:Hd;
    intros H; inversion H; subst; clear H.
  - right. exists d. repeat split; try reflexivity. cbn.
    apply list_lookup_insert_eq. eapply lookup_lt_Some. exact Hd.
  - left. repeat split. eexists. reflexivity.
Qed.

Section PathOfAMovedDocument.
Variable E : Externals.

Lemma relink_keeps_path data moved s res s' d :
  relink E data moved s = (res, s') ->
  heap s !! data = Some d ->
  exists d', heap s' !! data = Some d' /\ prop "path" d' = prop "path" d.
Proof.
  unfold relink. intros H Hd. unfold bind at 1 in H. unfold read at 1 in H.
  pose proof Hd as Hd0. 
  destruct (heap s !! data) as [d0|] eqn:Hd1; [|discriminate].
  injection Hd0 as ->.
  unfold bind at 1 in H.
  destruct (contents_toString E (prop "contents" d) s) as [[content|e] s1] eqn:Hc.
  - assert (s1 = s) as ->.
    { unfold contents_toString in Hc.
      destruct (prop "contents" d); inversion Hc; reflexivity. }
    apply write_outcome in H. destruct H as [(Hn & _)|(d1 & Hd2 & _ & _ & Hs')].
    + congruence.
    + exists (Obj.set "contents" (VBuffer (relink_content content moved)) d1).
      split; [exact Hs'|]. rewrite prop_set.
      assert (Hsame : Some d = Some d1)
        by (etransitivity; [symmetry; exact Hd1|exact Hd2]).
      injection Hsame as <-. reflexivity.
  - inversion H; subst. 
    assert (s' = s) as ->.
    { unfold contents_toString in Hc.
      destruct (prop "contents" d); inversion Hc; reflexivity. }
    exists d. split; [exact Hd1|reflexivity].
Qed.

(** X15. When the relocation of a document runs to its end, the document's
    [path] is a string that ends in [html] and holds no backslash. *)
Theorem moved_document_path cfg fuel file data s s' :
  relocate E cfg fuel file data s = (Val tt, s') ->
  exists d' p,
    heap s' !! data = Some d' /\ prop "path" d' = VString p /\
    Js.ends_with p "html" = true /\ Js.unbackslash p = p.
Proof.
  intros H. unfold relocate in H.
  do 8 run_bind H.
  set (p0 := if String.eqb a5 "." then "" else Js.unbackslash a5) in *.
  assert (Hp0 : Js.unbackslash p0 = p0).
  { unfold p0. destruct (String.eqb a5 "."); [reflexivity|apply unbackslash_idem]. }
  apply write_outcome in Hrun6.
  destruct Hrun6 as [(_ & _ & e & He)|(d6 & _ & _ & _ & Hd7)]; [discriminate|].
  run_bind H.
  assert (Hfield : a7 = VString p0 /\ s8 = s7).
  { unfold field, deref, bind, pure, read in Hrun6.
    destruct (heap s7 !! data) as [d7|] eqn:Hl; [|discriminate].
    injection Hd7 as ->. rewrite prop_set in Hrun6. cbn in Hrun6.
    inversion Hrun6. split; reflexivity. }
  destruct Hfield as [-> ->]. cbn [to_string] in H.
  apply bind_Val in H. destruct H as (u & s9 & Hrun7 & H).
  assert (Hpath : exists d9 p, heap s9 !! data = Some d9 /\
                    prop "path" d9 = VString p /\
                    Js.ends_with p "html" = true /\ Js.unbackslash p = p).
  { destruct (Js.ends_with p0 "html") eqn:Hends; cbn [negb] in Hrun7.
    - inversion Hrun7; subst s9.
      exists (Obj.set "path" (VString p0) d6), p0.
      rewrite prop_set. cbn. auto.
    - apply write_outcome in Hrun7.
      destruct Hrun7 as [(_ & _ & e & He)|(d8 & _ & _ & _ & Hd9)]; [discriminate|].
      exists (Obj.set "path" (VString (p0 +:+ "/index.html")) d8),
        (p0 +:+ "/index.html").
      rewrite prop_set. cbn. split; [exact Hd9|]. split; [reflexivity|].
      split.
      + apply ends_with_longer. reflexivity.
      + rewrite unbackslash_app, Hp0. reflexivity. }
  destruct Hpath as (d9 & p & Hd9 & Hprop & Hends & Hnorm).
  apply bind_Val in H. destruct H as (u' & s10 & Hrun8 & H).
  destruct (relink_keeps_path _ _ _ _ _ _ Hrun8 Hd9) as (d' & Hd' & Hsame).
  unfold modify in H. inversion H; subst s'. cbn [heap set_files].
  exists d', p. rewrite Hsame. auto.
Qed.

End PathOfAMovedDocument.

Lemma moved_document_path_witness :
  exists d' p,
    heap (snd (relocate stand_in (plugin stand_in OptionsNone) 0 "about.html" 0
                 (site root_site root_documents))) !! 0 = Some d' /\
    prop "path" d' = VString p /\
    Js.ends_with p "html" = true /\ Js.unbackslash p = p.
Proof.
  apply (moved_document_path stand_in (plugin stand_in OptionsNone) 0 "about.html" 0
           (site root_site root_documents)).
  vm_compute. reflexivity.
Defined.

(** ** A permalink that is not a string *)

Lemma throws_bind (R : state -> state -> Prop) {A B : Type} (m : M A) (k : A -> M B) :
  (forall s1 s2 s3, R s1 s2 -> R s2 s3 -> R s1 s3) ->
  steps R m -> (forall a, throws_with R (k a)) -> throws_with R (bind m k).
Proof.
  intros Htrans Hm Hk s r s' H. unfold bind in H.
  destruct (m s) as [[a|e] s1] eqn:Hms.
  - destruct (Hk a s1 r s' H) as [He HR]. split; [exact He|].
    eapply Htrans; [eapply Hm; eassumption|exact HR].
  - inversion H; subst. split; [eexists; reflexivity|]. eapply Hm; eassumption.
Qed.

Lemma throws_throw (R : state -> state -> Prop) {A B : Type} (e : exn) (k : A -> M B) :
  (forall s, R s s) -> throws_with R (bind (throw e) k).
Proof.
  intros Hrefl s r s' H. inversion H; subst. split; [eexists; reflexivity|apply Hrefl].
Qed.

Section Permalinks.
Variable E : Externals.

(** X16. When a document has a [permalink] property of its own whose value
    is neither [false] nor a string, its relocation throws; [files] and
    the documents are then as they were before. *)
Theorem permalink_must_be_a_string cfg fuel file data s d r s' :
  heap s !! data = Some d ->
  Obj.has "permalink" d = true ->
  is_false (prop "permalink" d) = false ->
  (forall p, prop "permalink" d <> VString p) ->
  relocate E cfg fuel file data s = (r, s') ->
  (exists e, r = Exc e) /\ files s' = files s /\ heap s' = heap s.
Proof.
  intros Hd Hhas Hfalse Hstr H.
  assert (Hrefl : forall s, same_files_heap s s) by (split; reflexivity).
  assert (Htrans : forall s1 s2 s3, same_files_heap s1 s2 -> same_files_heap s2 s3 ->
                                    same_files_heap s1 s3)
    by (intros s1 s2 s3 [H1 H2] [H3 H4]; split; congruence).
  assert (Hcharmap : forall s c, same_files_heap s (set_charmap c s))
    by (split; reflexivity).
  assert (Hdupes : forall s k v, same_files_heap s (set_dupes (Obj.set k v (dupes s)) s))
    by (split; reflexivity).
  assert (Hcalls : forall s c, same_files_heap s (set_done_calls c s))
    by (split; reflexivity).
  assert (Hheap : forall s, same_files_heap s (set_heap (heap s) s))
    by (split; reflexivity).
  unfold relocate in H. unfold bind at 1 in H. unfold read at 1 in H.
  destruct (heap s !! data) as [d0|] eqn:Hd0; [|discriminate].
  injection Hd as ->.
  match type of H with
  | ?m s = _ => assert (T : throws_with same_files_heap m)
  end; [|destruct (T s r s' H) as [He [Hf Hh]]; auto].
  clear H.
  apply throws_bind; [assumption| |intros ls].
  { unfold findLinkset. steps_tac. apply steps_find_match; assumption. }
  apply throws_bind; [assumption| |intros ppath].
  { unfold replace_or_resolve. steps_tac. apply steps_replace; assumption. }
  apply throws_bind; [assumption|apply steps_gets; assumption|intros fs].
  cbv zeta. rewrite Hhas, Hfalse. cbn [andb negb].
  apply throws_bind; [assumption| |intros out].
  { apply steps_makeUnique; assumption. }
  apply throws_bind; [assumption| |intros moved].
  { destruct (collect ls file fs); [apply steps_stage; assumption|].
    apply steps_pure; assumption. }
  destruct (prop "permalink" d) eqn:Hp; try (apply throws_throw; assumption).
  exfalso. eapply Hstr. reflexivity.
Qed.

End Permalinks.

Lemma permalink_must_be_a_string_witness :
  (exists e, fst (relocate stand_in (plugin stand_in OptionsNone) 0 "c.html" 0
                    (site [("c.html", 0)] [document "C" [("permalink", VNumber 3)]]))
             = Exc e) /\
  files (snd (relocate stand_in (plugin stand_in OptionsNone) 0 "c.html" 0
                (site [("c.html", 0)] [document "C" [("permalink", VNumber 3)]])))
  = [("c.html", 0)] /\
  heap (snd (relocate stand_in (plugin stand_in OptionsNone) 0 "c.html" 0
               (site [("c.html", 0)] [document "C" [("permalink", VNumber 3)]])))
  = [document "C" [("permalink", VNumber 3)]].
Proof.
  apply (permalink_must_be_a_string stand_in (plugin stand_in OptionsNone) 0 "c.html" 0
           (site [("c.html", 0)] [document "C" [("permalink", VNumber 3)]])
           (document "C" [("permalink", VNumber 3)])).
  - reflexivity.
  - reflexivity.
  - reflexivity.
  - intros p H. vm_compute in H. discriminate H.
  - apply surjective_pairing.
Defined.

(** ** The linksets of a configured plugin *)

Section Configured.
Variable E : Externals.



(** ** Placeholders and their values *)

Lemma replace_keys_values keys d ls : forall ret s r s',
  replace_keys E keys d ls ret s = (Val (Some r), s') ->
  forall k, In k keys ->
    truthy (prop k d) = true /\ is_empty_array (prop k d) = false.
Proof.
  induction keys as [|key keys IH]; intros ret s r s' H k Hk; [destruct Hk|].
  cbn [replace_keys] in H.
  destruct (negb (truthy (prop key d)) || is_empty_array (prop key d)) eqn:Hv.
  - inversion H.
  - apply bind_Val in H. destruct H as (v & s1 & _ & H).
    destruct Hk as [<-|Hk].
    + apply orb_false_elim in Hv. destruct Hv as [Ht He].
      apply negb_false_iff in Ht. auto.
    + eapply IH; eassumption.
Qed.

(** X18. When [replace] returns a path for a pattern, the document has for
    every placeholder of the pattern a value that is truthy and not an
    empty array. *)
Theorem replace_needs_every_value p d ls s r s' :
  replace E (Some p) d ls s = (Val (Some r), s') ->
  forall k, In k (params p) ->
    truthy (prop k d) = true /\ is_empty_array (prop k d) = false.
Proof.
  unfold replace. destruct (is_empty p); [discriminate|].
  intros H. apply bind_Val in H. destruct H as ([ret|] & s1 & Hkeys & H);
    [|discriminate].
  eapply replace_keys_values. exact Hkeys.
Qed.

(** X19. When the document's value for the first placeholder of the pattern
    is a [Date] and the [date] of the linkset is not a function, [replace]
    throws a [TypeError] and leaves the state as it is. The linksets are
    not normalized: a linkset with a format string for [date], or with no
    [date], is such a linkset. *)
Theorem dates_need_a_date_function p key rest d t ls s :
  params p = key :: rest ->
  prop key d = VDate t ->
  (forall f, ls_date ls <> DateFunction f) ->
  exists msg, replace E (Some p) d ls s = (Exc (TypeError msg), s).
Proof.
  intros Hp Hv Hdate. unfold replace.
  destruct (is_empty p) eqn:Hempty.
  { destruct p; [discriminate Hp|discriminate Hempty]. }
  rewrite Hp. cbn [replace_keys]. rewrite Hv. cbn.
  destruct (ls_date ls) as [|fmt|f] eqn:Hd.
  - eexists. reflexivity.
  - eexists. reflexivity.
  - exfalso. eapply Hdate. reflexivity.
Qed.

End Configured.


Lemma replace_needs_every_value_witness :
  truthy (prop "title" post) = true /\ is_empty_array (prop "title" post) = false.
Proof.
  apply (replace_needs_every_value stand_in "posts/:title" post
           (compile_linkset stand_in posts_linkset) (configured [post])
           "posts/Hello" (configured [post])).
  - vm_compute. reflexivity.
  - left. reflexivity.
Defined.

Lemma dates_need_a_date_function_witness :
  exists msg,
    replace stand_in (Some ":date/:title") post (compile_linkset stand_in posts_linkset)
      (configured [post])
    = (Exc (TypeError msg), configured [post]).
Proof.
  apply (dates_need_a_date_function stand_in ":date/:title" "date" ["title"] post 0%Z).
  - reflexivity.
  - reflexivity.
  - intros f H. discriminate H.
Defined.

(** ** The options handed to slugify *)

Lemma get_fold_set {A : Type} k (source : Obj.t A) : forall target,
  List.NoDup (Obj.keys source) ->
  Obj.get k (fold_left (fun acc kv => Obj.set (fst kv) (snd kv) acc) source target) =
  match Obj.get k source with Some v => Some v | None => Obj.get k target end.
Proof.
  induction source as [|[k0 v0] source IH]; intros target Hnd; [reflexivity|].
  cbn [fold_left fst snd Obj.get]. cbn [Obj.keys map fst] in Hnd.
  apply List.NoDup_cons_iff in Hnd. destruct Hnd as [Hk0 Hnd].
  rewrite (IH _ Hnd), get_set.
  destruct (String.eqb_spec k0 k) as [->|Hne]; [|reflexivity].
  apply get_None_keys in Hk0. unfold Obj.keys. rewrite Hk0. reflexivity.
Qed.

Lemma get_assign {A : Type} k (target source : Obj.t A) :
  List.NoDup (Obj.keys source) ->
  Obj.get k (Obj.assign target source) =
  match Obj.get k source with Some v => Some v | None => Obj.get k target end.
Proof. apply get_fold_set. Qed.

Section Slug.
Variable E : Externals.

(** X20. [slug(text, options)] calls slugify with the options
    [{lower: true}] overridden by the given ones: a key of the given
    options has the given value, [lower] is [true] when it is not given,
    and no other key is present. *)
Theorem slug_options_override_lower text options s :
  List.NoDup (Obj.keys options) ->
  exists merged,
    fst (slug_text E text options s) =
      Val (slugify E (charmap (snd (slug_text E text options s))) text merged) /\
    forall k, Obj.get k merged =
              match Obj.get k options with
              | Some v => Some v
              | None => if String.eqb k "lower" then Some (VBool true) else None
              end.
Proof.
  intros Hnd.
  exists (Obj.assign (Obj.assign [] [("lower", VBool true)]) options).
  split.
  - unfold slug_text. destruct (is_object (prop "extend" options)); reflexivity.
  - intros k. rewrite get_assign by exact Hnd.
    destruct (Obj.get k options); [reflexivity|].
    change (Obj.assign [] [("lower", VBool true)])
      with (@Obj.set value "lower" (VBool true) []).
    rewrite get_set. rewrite (String.eqb_sym k "lower").
    destruct (String.eqb "lower" k); reflexivity.
Qed.

End Slug.

Lemma slug_options_override_lower_witness :
  exists merged,
    fst (slug_text stand_in "Hello" [("lower", VBool false); ("strict", VBool true)]
           (configured []))
    = Val (slugify stand_in
             (charmap (snd (slug_text stand_in "Hello"
                              [("lower", VBool false); ("strict", VBool true)]
                              (configured []))))
             "Hello" merged) /\
    forall k, Obj.get k merged =
              match Obj.get k [("lower", VBool false); ("strict", VBool true)] with
              | Some v => Some v
              | None => if String.eqb k "lower" then Some (VBool true) else None
              end.
Proof.
  apply (slug_options_override_lower stand_in "Hello"
           [("lower", VBool false); ("strict", VBool true)] (configured [])).
  simpl. distinct_keys.
Defined.

(** ** The custom slug *)

Section CustomSlug.
Variable E : Externals.

(** X21. With a [customSlug] function and no filter, the callback of the
    main loop writes [slug] also on a document whose key has not the
    extension [.html]: the slug it has when that is truthy, what the
    function returns for it otherwise. Nothing else changes. *)
Theorem customSlug_reaches_every_document cfg fuel file s r d f :
  customSlug (cfg_options cfg) = Some f ->
  fileFilter (cfg_options cfg) = None ->
  ignoreFilter (cfg_options cfg) = None ->
  html file = false ->
  Obj.get file (files s) = Some r ->
  heap s !! r = Some d ->
  process E cfg fuel file s =
  (Val tt,
   set_heap (<[r := Obj.set "slug"
                      (if truthy (prop "slug" d) then prop "slug" d else f d) d]>
               (heap s)) s).
Proof.
  intros Hcs Hff Hif Hhtml Hget Hd. unfold process. cbv zeta.
  rewrite Hcs, Hff, Hif, Hhtml.
  unfold bind at 1. unfold gets at 1. rewrite Hget.
  unfold bind at 1. unfold pure at 1.
  unfold bind at 1. unfold pure at 1. cbn [negb].
  unfold bind at 1. unfold bind at 1. unfold deref at 1. unfold pure at 1.
  unfold bind at 1. unfold read at 1.
  destruct (heap s !! r) as [d0|] eqn:Hd0; [|discriminate].
  injection Hd as ->.
  unfold write, bind, read. rewrite Hd0. reflexivity.
Qed.

End CustomSlug.

Lemma customSlug_reaches_every_document_witness :
  process stand_in (plugin stand_in (OptionsObject slugged_options)) 0 "logo.png"
    (site root_site root_documents)
  = (Val tt,
     site root_site
       [document "about" []; document "png" [("slug", VString "custom")]]).
Proof.
  exact (customSlug_reaches_every_document stand_in
           (plugin stand_in (OptionsObject slugged_options)) 0 "logo.png"
           (site root_site root_documents) 1 (document "png" [])
           (fun _ => VString "custom") eq_refl eq_refl eq_refl eq_refl eq_refl eq_refl).
Defined.

(** ** A resolver of one's own *)

Section OwnResolver.
Variable E : Externals.

Lemma same_calls_process cfg fuel file f :
  unique (cfg_options cfg) = UniqueFunction f ->
  steps same_calls (process E cfg fuel file).
Proof.
  intros Hu.
  assert (Hrefl : forall s, same_calls s s) by (split; reflexivity).
  assert (Htrans : forall s1 s2 s3,
            same_calls s1 s2 -> same_calls s2 s3 -> same_calls s1 s3)
    by (intros s1 s2 s3 [H1 H2] [H3 H4]; split; congruence).
  assert (Hheap : forall s h, same_calls s (set_heap h s)) by (split; reflexivity).
  assert (Hcharmap : forall s c, same_calls s (set_charmap c s))
    by (split; reflexivity).
  assert (Hdupes : forall s k v, same_calls s (set_dupes (Obj.set k v (dupes s)) s))
    by (split; reflexivity).
  assert (Hfiles : forall s fs, same_calls s (set_files fs s))
    by (split; reflexivity).
  unfold process, relocate, makeUnique. rewrite Hu.
  steps_tac;
    auto using steps_find_match, steps_replace, steps_contents_toString, steps_stage.
Qed.

(** X22. With a function for [unique], no clash is reported, whatever
    [duplicatesFail] is: in a whole run [done] is called once, without
    argument. *)
Theorem custom_resolver_never_reports cfg fuel fs s f :
  unique (cfg_options cfg) = UniqueFunction f ->
  done_calls (run E cfg fuel fs s) = [DoneOk].
Proof.
  intros Hu.
  assert (Hrefl : forall s, same_calls s s) by (split; reflexivity).
  assert (Htrans : forall s1 s2 s3,
            same_calls s1 s2 -> same_calls s2 s3 -> same_calls s1 s3)
    by (intros s1 s2 s3 [H1 H2] [H3 H4]; split; congruence).
  assert (Hfiles : forall s fs, same_calls s (set_files fs s))
    by (split; reflexivity).
  assert (Hrest : steps same_calls
            (let* fs := gets files in
             do for_each (process E cfg fuel) (Obj.keys fs) then flush)).
  { unfold flush. steps_tac.
    - apply steps_for_each; [assumption|assumption|].
      intros file. eapply same_calls_process. exact Hu.
    - apply steps_for_each; [assumption|assumption|]. intros x. steps_tac. }
  unfold run, call.
  set (s0 := set_files fs (set_done_calls [] (set_immediates 0 s))).
  assert (Ht : transform E cfg fuel s0
               = (let* fs := gets files in
                  do for_each (process E cfg fuel) (Obj.keys fs) then flush)
                   (set_immediates (S (immediates s0)) s0)) by reflexivity.
  rewrite Ht. clear Ht.
  destruct ((let* fs := gets files in
             do for_each (process E cfg fuel) (Obj.keys fs) then flush)
              (set_immediates (S (immediates s0)) s0))
    as [r s'] eqn:Hrun.
  destruct (Hrest _ _ _ Hrun) as [Hcalls Him].
  unfold event_loop. cbn [snd done_calls set_immediates set_done_calls].
  rewrite Hcalls, Him. reflexivity.
Qed.

End OwnResolver.

Lemma custom_resolver_never_reports_witness :
  done_calls (run stand_in (plugin stand_in (OptionsObject stubborn_options)) 0
                news_site (configured news_documents))
  = [DoneOk].
Proof.
  exact (custom_resolver_never_reports stand_in
           (plugin stand_in (OptionsObject stubborn_options)) 0 news_site
           (configured news_documents) (fun _ _ _ => VString "same") eq_refl).
Defined.

(** ** Pages in directories *)

Lemma str_chars s : Js.str (Js.chars s) = s.
Proof. apply string_of_list_ascii_of_string. Qed.

Lemma length_chars s : length (Js.chars s) = String.length s.
Proof. induction s as [|c s IH]; [reflexivity|]. cbn. f_equal. exact IH. Qed.

Lemma length_append a b : String.length (a +:+ b) = String.length a + String.length b.
Proof.
  induction a as [|c a IH]; [reflexivity|]. rewrite append_cons. cbn. f_equal. exact IH.
Qed.

Lemma take_while_app p l l' :
  forallb p l = true ->
  match l' with a :: _ => p a = false | [] => True end ->
  Path.take_while p (l ++ l') = l.
Proof.
  intros Hl Hl'. induction l as [|a l IH]; cbn.
  - destruct l' as [|a' l']; [reflexivity|]. cbn. now rewrite Hl'.
  - cbn in Hl. apply andb_true_iff in Hl. destruct Hl as [-> Hl].
    f_equal. apply IH. exact Hl.
Qed.

Lemma drop_while_app p l l' :
  forallb p l = true ->
  match l' with a :: _ => p a = false | [] => True end ->
  Path.drop_while p (l ++ l') = l'.
Proof.
  intros Hl Hl'. induction l as [|a l IH]; cbn.
  - destruct l' as [|a' l']; [reflexivity|]. cbn. now rewrite Hl'.
  - cbn in Hl. apply andb_true_iff in Hl. destruct Hl as [-> Hl].
    apply IH. exact Hl.
Qed.

Lemma drop_while_head p l :
  match l with a :: _ => p a = false | [] => True end -> Path.drop_while p l = l.
Proof. destruct l as [|a l]; [reflexivity|]. cbn. now intros ->. Qed.

Lemma forallb_rev' {A : Type} (f : A -> bool) l : forallb f (rev l) = forallb f l.
Proof.
  induction l as [|a l IH]; [reflexivity|].
  cbn. rewrite forallb_app, IH. cbn. rewrite andb_true_r. apply andb_comm.
Qed.

(** The characters of a leaf, last one first: the first is no slash. *)
Lemma rev_leaf x :
  x <> "" -> forallb Path.not_slash (Js.chars x) = true ->
  exists a t, rev (Js.chars x) = a :: t /\ Path.is_slash a = false /\
              forallb Path.not_slash (a :: t) = true.
Proof.
  intros Hx Hall. destruct (rev (Js.chars x)) as [|a t] eqn:Hrev.
  - exfalso. apply Hx. rewrite <- (str_chars x), <- (rev_involutive (Js.chars x)), Hrev.
    reflexivity.
  - exists a, t. rewrite <- forallb_rev', Hrev in Hall.
    split; [reflexivity|]. split; [|exact Hall].
    cbn in Hall. apply andb_true_iff in Hall. destruct Hall as [Ha _].
    unfold Path.not_slash in Ha. now apply negb_true_iff in Ha.
Qed.

Lemma rev_before_leaf pre :
  before_leaf pre ->
  match rev (Js.chars pre) with a :: _ => Path.not_slash a = false | [] => True end.
Proof.
  intros [->|[dir ->]]; [exact I|].
  rewrite chars_app, rev_app_distr. reflexivity.
Qed.

Lemma last_component_leaf pre x :
  before_leaf pre -> x <> "" -> forallb Path.not_slash (Js.chars x) = true ->
  Path.last_component (pre +:+ x) = x.
Proof.
  intros Hpre Hx Hall. unfold Path.last_component.
  rewrite chars_app, rev_app_distr.
  destruct (rev_leaf x Hx Hall) as (a & t & Hrev & Ha & Hat).
  rewrite drop_while_head by (rewrite Hrev; exact Ha).
  rewrite take_while_app.
  - rewrite rev_involutive. apply str_chars.
  - rewrite Hrev. exact Hat.
  - apply rev_before_leaf. exact Hpre.
Qed.

Lemma last_dot_app l l' : forall i found,
  Path.last_dot (l ++ l') i found = Path.last_dot l' (i + length l) (Path.last_dot l i found).
Proof.
  induction l as [|a l IH]; intros i found; cbn.
  - now rewrite Nat.add_0_r.
  - rewrite IH. f_equal. lia.
Qed.

Lemma slice_to_app a b : Js.slice_to (String.length a) (a +:+ b) = a.
Proof.
  induction a as [|c a IH]; [destruct b; reflexivity|].
  rewrite append_cons. cbn. f_equal. exact IH.
Qed.

Lemma eqb_length_neq a b : String.length a <> String.length b -> String.eqb a b = false.
Proof. intros H. apply String.eqb_neq. intros ->. now apply H. Qed.

Section Leaves.
Variables pre name : string.
Hypothesis Hpre : before_leaf pre.
Hypothesis Hname : name <> "".
Hypothesis Hplain : forallb Path.not_slash (Js.chars name) = true.

Let leaf := name +:+ ".html".

Lemma leaf_not_empty : leaf <> "".
Proof.
  unfold leaf. intros H. apply (f_equal String.length) in H.
  rewrite length_append in H. cbn in H. lia.
Qed.

Lemma leaf_plain : forallb Path.not_slash (Js.chars leaf) = true.
Proof. unfold leaf. rewrite chars_app, forallb_app, Hplain. reflexivity. Qed.

Lemma name_length : exists n, String.length name = S n.
Proof. destruct name; [congruence|]. eexists. reflexivity. Qed.

Lemma extname_leaf : Path.extname (pre +:+ leaf) = ".html".
Proof.
  unfold Path.extname.
  rewrite (last_component_leaf pre leaf Hpre leaf_not_empty leaf_plain).
  unfold leaf at 1. rewrite chars_app, last_dot_app. cbn [Nat.add].
  rewrite length_chars. cbn.
  destruct name_length as [n Hn]. rewrite Hn.
  rewrite eqb_length_neq
    by (unfold leaf; rewrite length_append; cbn; lia).
  rewrite <- Hn. unfold leaf. apply slice_from_app.
Qed.

Lemma basename_leaf : Path.basename (pre +:+ leaf) ".html" = name.
Proof.
  unfold Path.basename.
  rewrite (last_component_leaf pre leaf Hpre leaf_not_empty leaf_plain).
  destruct name_length as [n Hn].
  assert (Hlen : String.length leaf = S n + 5)
    by (unfold leaf; rewrite length_append, Hn; reflexivity).
  assert (Hfull : String.length (pre +:+ leaf) = String.length pre + (S n + 5))
    by (rewrite length_append, Hlen; reflexivity).
  cbn [String.length Nat.eqb orb].
  replace (String.length (pre +:+ leaf) <? 5)%nat with false
    by (symmetry; apply Nat.ltb_ge; lia).
  rewrite eqb_length_neq by (cbn; lia).
  replace (String.length leaf =? 0)%nat with false
    by (symmetry; apply Nat.eqb_neq; lia).
  unfold leaf at 1. rewrite ends_with_app.
  replace (String.length leaf =? 5)%nat with false
    by (symmetry; apply Nat.eqb_neq; lia).
  replace (String.length leaf - 5) with (String.length name) by lia.
  apply slice_to_app.
Qed.

End Leaves.

Lemma dirname_top x :
  x <> "" -> forallb Path.not_slash (Js.chars x) = true -> Path.dirname x = ".".
Proof.
  intros Hx Hall. unfold Path.dirname.
  destruct (Js.chars x) as [|c0 rest] eqn:Hc.
  - reflexivity.
  - cbn in Hall. apply andb_true_iff in Hall. destruct Hall as [Hc0 Hrest].
    unfold Path.not_slash in Hc0. apply negb_true_iff in Hc0. rewrite Hc0.
    rewrite <- forallb_rev' in Hrest.
    rewrite (drop_while_head Path.is_slash (rev rest)).
    + rewrite <- (app_nil_r (rev rest)), drop_while_app; [reflexivity|exact Hrest|exact I].
    + destruct (rev rest) as [|a t]; [exact I|].
      cbn in Hrest. apply andb_true_iff in Hrest. destruct Hrest as [Ha _].
      unfold Path.not_slash in Ha. now apply negb_true_iff in Ha.
Qed.

Lemma dirname_leaf dir x :
  dir <> "" -> Path.first_is_slash dir = false ->
  x <> "" -> forallb Path.not_slash (Js.chars x) = true ->
  Path.dirname (dir +:+ "/" +:+ x) = dir.
Proof.
  intros Hdir Hfirst Hx Hall. unfold Path.dirname.
  rewrite chars_app, chars_app.
  destruct dir as [|c0 rest]; [congruence|].
  cbn [Js.chars list_ascii_of_string app]. cbn in Hfirst. rewrite Hfirst.
  change (list_ascii_of_string rest) with (Js.chars rest).
  change (list_ascii_of_string x) with (Js.chars x).
  change (list_ascii_of_string "/") with [Js.slash].
  rewrite rev_app_distr. cbn [rev]. rewrite <- app_assoc. cbn [app].
  destruct (rev_leaf x Hx Hall) as (a & t & Hrev & Ha & Hat).
  rewrite (drop_while_head Path.is_slash) by (rewrite Hrev; exact Ha).
  rewrite drop_while_app; [|rewrite Hrev; exact Hat|reflexivity].
  cbn [andb]. rewrite rev_involutive.
  change (c0 :: Js.chars rest) with (Js.chars (String c0 rest)).
  apply str_chars.
Qed.

Lemma segments_plain x : slash_free x -> Path.segments x = [x].
Proof.
  unfold slash_free. induction x as [|a x IH]; intros H; [reflexivity|].
  cbn in H. apply andb_true_iff in H. destruct H as [Ha Hx].
  unfold Path.not_slash in Ha. apply negb_true_iff in Ha.
  cbn [Path.segments]. rewrite Ha, (IH Hx). reflexivity.
Qed.

Lemma segments_slash x rest :
  slash_free x -> Path.segments (x +:+ String Js.slash rest) = x :: Path.segments rest.
Proof.
  unfold slash_free. induction x as [|a x IH]; intros H.
  - reflexivity.
  - cbn in H. apply andb_true_iff in H. destruct H as [Ha Hx].
    unfold Path.not_slash in Ha. apply negb_true_iff in Ha.
    rewrite append_cons. cbn [Path.segments]. rewrite Ha, (IH Hx). reflexivity.
Qed.

Lemma concat_cons x y rest :
  String.concat "/" (x :: y :: rest) = x +:+ String Js.slash (String.concat "/" (y :: rest)).
Proof. reflexivity. Qed.

Lemma concat_snoc segs x :
  segs <> [] ->
  String.concat "/" (segs ++ [x]) = String.concat "/" segs +:+ String Js.slash x.
Proof.
  induction segs as [|a segs IH]; intros H; [congruence|].
  destruct segs as [|b segs]; [reflexivity|].
  change ((a :: b :: segs) ++ [x]) with (a :: b :: (segs ++ [x])).
  rewrite !concat_cons.
  change (b :: segs ++ [x]) with ((b :: segs) ++ [x]).
  rewrite IH by discriminate. rewrite append_assoc, append_cons. reflexivity.
Qed.

Lemma segments_concat segs :
  segs <> [] -> Forall slash_free segs ->
  Path.segments (String.concat "/" segs) = segs.
Proof.
  induction segs as [|a segs IH]; intros Hne Hall; [congruence|].
  inversion Hall as [|? ? Ha Hrest]; subst.
  destruct segs as [|b segs].
  - apply segments_plain. exact Ha.
  - rewrite concat_cons, segments_slash by exact Ha.
    f_equal. apply IH; [discriminate|exact Hrest].
Qed.

Lemma segment_slash_free seg : segment seg = true -> slash_free seg.
Proof.
  unfold segment, slash_free. intros H. apply andb_true_iff in H. apply H.
Qed.

Lemma segment_not_empty seg : segment seg = true -> seg <> "".
Proof.
  unfold segment. intros H Heq. subst seg. discriminate H.
Qed.

Lemma normalize_step_segment b res seg :
  segment seg = true -> Path.normalize_step b res seg = seg :: res.
Proof.
  unfold segment, Path.normalize_step. intros H.
  repeat (apply andb_true_iff in H; destruct H as [H ?]).
  apply negb_true_iff in H. rewrite H.
  repeat match goal with
         | H : negb _ = true |- _ => apply negb_true_iff in H; rewrite H
         end.
  reflexivity.
Qed.

Lemma fold_segments b segs : forall res,
  Forall (fun seg => segment seg = true) segs ->
  fold_left (Path.normalize_step b) segs res = rev segs ++ res.
Proof.
  induction segs as [|a segs IH]; intros res Hall; [reflexivity|].
  inversion Hall as [|? ? Ha Hrest]; subst.
  cbn [fold_left rev]. rewrite normalize_step_segment by exact Ha.
  rewrite IH by exact Hrest. rewrite <- app_assoc. reflexivity.
Qed.

Lemma last_is_slash_app a b :
  b <> "" -> Path.last_is_slash (a +:+ b) = Path.last_is_slash b.
Proof.
  intros Hb. unfold Path.last_is_slash. rewrite chars_app, rev_app_distr.
  destruct (rev (Js.chars b)) as [|c t] eqn:Hrev; [|reflexivity].
  exfalso. apply Hb. rewrite <- (str_chars b), <- (rev_involutive (Js.chars b)), Hrev.
  reflexivity.
Qed.

Lemma last_is_slash_plain x : x <> "" -> slash_free x -> Path.last_is_slash x = false.
Proof.
  intros Hx Hall. destruct (rev_leaf x Hx Hall) as (a & t & Hrev & Ha & _).
  unfold Path.last_is_slash. rewrite Hrev. exact Ha.
Qed.

Lemma concat_not_empty segs :
  segs <> [] -> Forall (fun seg => segment seg = true) segs ->
  String.concat "/" segs <> "".
Proof.
  intros Hne Hall. destruct segs as [|a segs]; [congruence|].
  inversion Hall as [|? ? Ha _]; subst. apply segment_not_empty in Ha.
  destruct a as [|c a]; [congruence|].
  destruct segs; [discriminate|]. rewrite concat_cons, append_cons. discriminate.
Qed.

Lemma first_is_slash_concat segs :
  Forall (fun seg => segment seg = true) segs ->
  Path.first_is_slash (String.concat "/" segs) = false.
Proof.
  intros Hall. destruct segs as [|a segs]; [reflexivity|].
  inversion Hall as [|? ? Ha _]; subst.
  pose proof (segment_not_empty a Ha) as Hne.
  apply segment_slash_free in Ha. unfold slash_free in Ha.
  destruct a as [|c a]; [congruence|].
  cbn in Ha. apply andb_true_iff in Ha. destruct Ha as [Hc _].
  unfold Path.not_slash in Hc. apply negb_true_iff in Hc.
  destruct segs; [exact Hc|]. rewrite concat_cons, append_cons. exact Hc.
Qed.

Lemma last_is_slash_concat segs :
  Forall (fun seg => segment seg = true) segs ->
  Path.last_is_slash (String.concat "/" segs) = false.
Proof.
  induction segs as [|a segs IH]; intros Hall; [reflexivity|].
  inversion Hall as [|? ? Ha Hrest]; subst.
  destruct segs as [|b segs].
  - apply last_is_slash_plain;
      [apply segment_not_empty; exact Ha|apply segment_slash_free; exact Ha].
  - rewrite concat_cons.
    change (String Js.slash (String.concat "/" (b :: segs)))
      with ("/" +:+ String.concat "/" (b :: segs)).
    rewrite last_is_slash_app.
    + rewrite last_is_slash_app; [apply IH; exact Hrest|].
      apply concat_not_empty; [discriminate|exact Hrest].
    + discriminate.
Qed.

Lemma length_not_empty x : x <> "" -> (String.length x =? 0)%nat = false.
Proof. destruct x; [congruence|reflexivity]. Qed.

(** [path.normalize] leaves a relative path of plain segments alone. *)
Lemma normalize_segments segs :
  segs <> [] -> Forall (fun seg => segment seg = true) segs ->
  Path.normalize (String.concat "/" segs) = String.concat "/" segs.
Proof.
  intros Hne Hall.
  assert (Hfree : Forall slash_free segs).
  { eapply List.Forall_impl; [|exact Hall]. exact segment_slash_free. }
  assert (Hstring : forall b,
             Path.normalizeString (String.concat "/" segs) b = String.concat "/" segs).
  { intros b. unfold Path.normalizeString.
    rewrite segments_concat, fold_segments by assumption.
    rewrite app_nil_r, rev_involutive. reflexivity. }
  unfold Path.normalize.
  rewrite length_not_empty by (apply concat_not_empty; assumption).
  rewrite first_is_slash_concat, last_is_slash_concat by assumption.
  cbv zeta. rewrite Hstring.
  rewrite length_not_empty by (apply concat_not_empty; assumption).
  reflexivity.
Qed.

(** [path.join('.', name)]. *)
Lemma join_dot name : segment name = true -> Path.join ["."; name] = name.
Proof.
  intros Hseg. pose proof (segment_not_empty name Hseg) as Hne.
  pose proof (segment_slash_free name Hseg) as Hfree.
  unfold Path.join. cbn [List.filter String.length Nat.eqb negb].
  rewrite length_not_empty by exact Hne. cbn [negb].
  rewrite concat_cons. cbn [String.concat].
  set (path := "." +:+ String Js.slash name).
  assert (Hstring : Path.normalizeString path true = name).
  { unfold Path.normalizeString, path. rewrite segments_slash by reflexivity.
    rewrite segments_plain by exact Hfree. cbn [fold_left].
    change (Path.normalize_step true [] ".") with (@nil string).
    rewrite normalize_step_segment by exact Hseg. reflexivity. }
  assert (Hfirst : Path.first_is_slash path = false) by reflexivity.
  assert (Hlast : Path.last_is_slash path = false).
  { change path with ("./" +:+ name).
    rewrite last_is_slash_app by exact Hne.
    apply last_is_slash_plain; assumption. }
  assert (Hlen : (String.length path =? 0)%nat = false) by reflexivity.
  unfold Path.normalize. rewrite Hlen, Hfirst, Hlast. cbv zeta. cbn [negb].
  rewrite Hstring, length_not_empty by exact Hne. reflexivity.
Qed.

(** [path.join(dir, name)] for a directory of plain segments. *)
Lemma join_segments dirs name :
  dirs <> [] -> Forall (fun seg => segment seg = true) dirs -> segment name = true ->
  Path.join [String.concat "/" dirs; name] = String.concat "/" (dirs ++ [name]).
Proof.
  intros Hne Hall Hseg. unfold Path.join. cbn [List.filter].
  rewrite length_not_empty by (apply concat_not_empty; assumption).
  rewrite length_not_empty by (apply segment_not_empty; exact Hseg).
  cbn [negb]. rewrite concat_cons. cbn [String.concat].
  rewrite <- concat_snoc by exact Hne.
  apply normalize_segments.
  - destruct dirs; discriminate.
  - apply Forall_app. split; [exact Hall|]. constructor; [exact Hseg|constructor].
Qed.

(** X23. For the page [name.html] in the directories [dirs], all of them
    names without a slash that are neither empty nor [.] nor [..], [html]
    holds, and [resolve] gives the directories and the name joined by
    slashes, with backslashes turned into slashes; for the name [index]
    it gives the directory as it is, [.] at the top. *)
Theorem resolve_of_a_page dirs name :
  Forall (fun seg => segment seg = true) dirs -> segment name = true ->
  let file := String.concat "/" (dirs ++ [name +:+ ".html"]) in
  html file = true /\
  resolve file =
    if String.eqb name "index"
    then match dirs with [] => "." | _ => String.concat "/" dirs end
    else Js.unbackslash (String.concat "/" (dirs ++ [name])).
Proof.
  intros Hdirs Hname file.
  pose proof (segment_not_empty name Hname) as Hne.
  pose proof (segment_slash_free name Hname) as Hfree.
  assert (Hfile : exists pre, before_leaf pre /\ file = pre +:+ (name +:+ ".html") /\
            Path.dirname file =
              match dirs with [] => "." | _ => String.concat "/" dirs end).
  { unfold file. destruct dirs as [|a dirs'] eqn:Hd.
    - exists "". split; [left; reflexivity|]. split; [reflexivity|].
      cbn [app String.concat]. apply dirname_top.
      + apply leaf_not_empty.
      + apply leaf_plain. exact Hfree.
    - rewrite <- Hd in *. assert (Hnil : dirs <> []) by (rewrite Hd; discriminate).
      exists (String.concat "/" dirs +:+ "/"). split; [right; eexists; reflexivity|].
      rewrite concat_snoc by exact Hnil. split.
      + rewrite append_assoc. reflexivity.
      + change (String Js.slash (name +:+ ".html")) with ("/" +:+ (name +:+ ".html")).
        replace (match dirs with [] => "." | _ => String.concat "/" dirs end)
          with (String.concat "/" dirs) by (rewrite Hd; reflexivity).
        apply dirname_leaf.
        * apply concat_not_empty; assumption.
        * apply first_is_slash_concat; assumption.
        * apply leaf_not_empty.
        * apply leaf_plain. exact Hfree. }
  destruct Hfile as (pre & Hpre & Hfile & Hdir).
  assert (Hext : Path.extname file = ".html")
    by (rewrite Hfile; apply extname_leaf; assumption).
  split.
  - unfold html. rewrite Hext. reflexivity.
  - unfold resolve. rewrite Hext, Hdir.
    replace (Path.basename file ".html") with name
      by (rewrite Hfile; symmetry; apply basename_leaf; assumption).
    destruct (String.eqb name "index"); cbn [negb]; [reflexivity|].
    f_equal. destruct dirs as [|a dirs'] eqn:Hd.
    + apply join_dot. exact Hname.
    + rewrite <- Hd in *. apply join_segments; [rewrite Hd; discriminate|assumption..].
Qed.

Lemma resolve_of_a_page_witness :
  html "blog/2019/first-post.html" = true /\
  resolve "blog/2019/first-post.html" = "blog/2019/first-post".
Proof.
  exact (resolve_of_a_page ["blog"; "2019"] "first-post"
           ltac:(repeat constructor) eq_refl).
Defined.

(** ** A page that nothing else places *)

Lemma bind_run {A B : Type} (m : M A) (k : A -> M B) s a s1 :
  m s = (Val a, s1) -> bind m k s = k a s1.
Proof. intros H. unfold bind. rewrite H. reflexivity. Qed.

Lemma bind_gets {A B : Type} (f : state -> A) (k : A -> M B) s :
  bind (gets f) k s = k (f s) s.
Proof. reflexivity. Qed.

Lemma bind_pure {A B : Type} (a : A) (k : A -> M B) s : bind (pure a) k s = k a s.
Proof. reflexivity. Qed.

Lemma read_run r s d : heap s !! r = Some d -> read r s = (Val d, s).
Proof. intros H. unfold read. rewrite H. reflexivity. Qed.

Lemma field_run r k s d :
  heap s !! r = Some d -> field (Some r) k s = (Val (prop k d), s).
Proof.
  intros H. unfold field, deref. rewrite bind_pure.
  rewrite (bind_run _ _ _ _ _ (read_run r s d H)). reflexivity.
Qed.

Lemma write_run r k v s d :
  heap s !! r = Some d ->
  write r k v s = (Val tt, set_heap (<[r := Obj.set k v d]> (heap s)) s) /\
  heap (set_heap (<[r := Obj.set k v d]> (heap s)) s) !! r = Some (Obj.set k v d).
Proof.
  intros H. split.
  - unfold write. rewrite (bind_run _ _ _ _ _ (read_run r s d H)). reflexivity.
  - cbn [heap set_heap]. apply list_lookup_insert_eq. eapply lookup_lt_Some. exact H.
Qed.

Lemma stage_string p fam : forall moved s,
  exists moved' s',
    stage (VString p) fam moved s = (Val moved', s') /\
    heap s' = heap s /\ files s' = files s.
Proof.
  induction fam as [|[key member] fam IH]; intros moved s.
  - exists moved, s. auto.
  - cbn [stage].
    destruct (IH (Obj.set key (Path.join [p; key]) moved)
                (set_dupes (Obj.set (Path.join [p; key]) member (dupes s)) s))
      as (moved' & s' & Hrun & Hheap & Hfiles).
    exists moved', s'. split; [exact Hrun|]. auto.
Qed.

Section Pages.
Variable E : Externals.

(** X24. With no filter, no [customSlug], no linkset, no pattern and no
    function for [unique], the callback of the main loop moves an [.html]
    document that has no [permalink] and whose contents are a buffer,
    when the key [path.join(resolve(file), indexFile || 'index.html')] is
    free: it returns, [files] holds the document under that key and no
    longer under [file], [done] is not called, and the document's [path]
    is [resolve(file)] without backslashes ([.] becoming the empty
    string), followed by [/index.html] unless it ends in [html]. *)
Theorem page_moves_to_its_directory cfg fuel file s r d c :
  fileFilter (cfg_options cfg) = None ->
  ignoreFilter (cfg_options cfg) = None ->
  customSlug (cfg_options cfg) = None ->
  linksets (cfg_options cfg) = [] ->
  ls_pattern (cfg_defaultLinkset cfg) = None ->
  default_resolver (cfg_options cfg) ->
  html file = true ->
  Obj.get file (files s) = Some r ->
  heap s !! r = Some d ->
  Obj.has "permalink" d = false ->
  prop "contents" d = VBuffer c ->
  let target := Path.join [resolve file; index_name (cfg_options cfg)] in
  Obj.has target (files s) = false ->
  exists s' d',
    process E cfg fuel file s = (Val tt, s') /\
    files s' = Obj.set target r (Obj.delete file (files s)) /\
    done_calls s' = done_calls s /\
    heap s' !! r = Some d' /\
    prop "path" d' = VString (path_of (resolve file)).
Proof.
  intros Hff Hif Hcs Hls Hpat Hdef Hhtml Hget Hd Hperm Hcontents target Hfree.
  unfold process. cbv zeta.
  rewrite bind_gets.
  rewrite Hff, Hif, Hcs, Hget, Hhtml.
  rewrite bind_pure.
  rewrite bind_pure.
  cbn [negb].
  rewrite bind_pure.
  assert (Hfield : forall k, field (Some r) k s = (Val (prop k d), s))
    by (intros k; apply field_run; exact Hd).
  rewrite (bind_run _ _ _ _ _ (Hfield "permalink")).
  rewrite (prop_absent _ _ Hperm). cbn [is_false].
  unfold deref. rewrite bind_pure.
  unfold relocate. cbv zeta.
  assert (Hread : read r s = (Val d, s)) by (apply read_run; exact Hd).
  rewrite (bind_run _ _ _ _ _ Hread).
  assert (Hfind : findLinkset E cfg d s = (Val (cfg_defaultLinkset cfg), s)).
  { unfold findLinkset. rewrite Hls. reflexivity. }
  rewrite (bind_run _ _ _ _ _ Hfind).
  assert (Hres : replace_or_resolve E (cfg_defaultLinkset cfg) d file s =
                 (Val (resolve file), s)).
  { unfold replace_or_resolve. rewrite Hpat. reflexivity. }
  rewrite (bind_run _ _ _ _ _ Hres).
  rewrite bind_gets.
  rewrite Hperm. cbn [andb].
  assert (Hmake : makeUnique E fuel (cfg_options cfg) (VString (resolve file)) file s =
                  (Val (VString target), s)).
  { unfold makeUnique, defaultUniquePath. cbn [to_string].
    assert (Hloop : defaultUniquePath_loop E fuel (cfg_options cfg) (resolve file) 0 "" s =
                    (Val (VString target), s)).
    { assert (Htarget : Path.join [resolve file +:+ ""; index_name (cfg_options cfg)]
                        = target).
      { unfold target. do 2 f_equal.
        generalize (resolve file). intros x. induction x as [|a x IH]; [reflexivity|].
        rewrite append_cons. f_equal. exact IH. }
      destruct fuel; cbn [defaultUniquePath_loop]; rewrite Htarget;
        rewrite bind_gets, Hfree, !andb_false_r;
        reflexivity. }
    unfold default_resolver in Hdef.
    destruct (unique (cfg_options cfg)); [exact Hloop|exact Hloop|contradiction]. }
  rewrite (bind_run _ _ _ _ _ Hmake).
  assert (Hstage : exists moved s1,
            match collect (cfg_defaultLinkset cfg) file (files s) with
            | Some fam => stage (VString (resolve file)) fam []
            | None => pure []
            end s = (Val moved, s1) /\ heap s1 = heap s /\ files s1 = files s /\
            done_calls s1 = done_calls s).
  { destruct (collect (cfg_defaultLinkset cfg) file (files s)) as [fam|].
    - destruct (stage_string (resolve file) fam [] s) as (moved & s1 & Hrun & Hh & Hf).
      exists moved, s1. repeat split; try assumption.
      assert (St : steps same_files_calls (stage (VString (resolve file)) fam [])).
      { apply steps_stage;
          [exact sfc_refl|exact sfc_trans|exact sfc_dupes]. }
      apply (St _ _ _ Hrun).
    - exists [], s. repeat split; reflexivity. }
  destruct Hstage as (moved & s1 & Hstage & Hh1 & Hf1 & Hc1).
  rewrite (bind_run _ _ _ _ _ Hstage).
  rewrite bind_pure.
  set (q := if String.eqb (resolve file) "." then "" else Js.unbackslash (resolve file)).
  assert (Hd1 : heap s1 !! r = Some d) by (rewrite Hh1; exact Hd).
  destruct (write_run r "path" (VString q) s1 d Hd1) as [Hw2 Hd2].
  set (s2 := set_heap (<[r := Obj.set "path" (VString q) d]> (heap s1)) s1) in *.
  rewrite (bind_run _ _ _ _ _ Hw2).
  rewrite (bind_run _ _ _ _ _ (field_run r "path" s2 _ Hd2)).
  rewrite prop_set. cbn [String.eqb Ascii.eqb Bool.eqb to_string].
  assert (Hcond : exists s3 d3,
            (if negb (Js.ends_with q "html")
             then write r "path" (VString (q +:+ "/index.html"))
             else pure tt) s2 = (Val tt, s3) /\
            heap s3 !! r = Some d3 /\
            prop "path" d3 = VString (path_of (resolve file)) /\
            prop "contents" d3 = VBuffer c /\
            files s3 = files s /\ done_calls s3 = done_calls s).
  { unfold path_of. fold q. destruct (Js.ends_with q "html"); cbn [negb].
    - exists s2, (Obj.set "path" (VString q) d).
      rewrite !prop_set. cbn [String.eqb Ascii.eqb Bool.eqb].
      repeat split; try assumption; reflexivity.
    - destruct (write_run r "path" (VString (q +:+ "/index.html")) s2 _ Hd2)
        as [Hw3 Hd3].
      eexists _, _. split; [exact Hw3|]. split; [exact Hd3|].
      rewrite !prop_set. cbn [String.eqb Ascii.eqb Bool.eqb].
      repeat split; try assumption; reflexivity. }
  destruct Hcond as (s3 & d3 & Hw3 & Hd3 & Hpath3 & Hcontents3 & Hf3 & Hc3).
  rewrite (bind_run _ _ _ _ _ Hw3).
  destruct (write_run r "contents" (VBuffer (relink_content c moved)) s3 d3 Hd3)
    as [Hw4 Hd4].
  assert (Hrelink : relink E r moved s3 =
            (Val tt, set_heap (<[r := Obj.set "contents"
                                         (VBuffer (relink_content c moved)) d3]>
                                 (heap s3)) s3)).
  { unfold relink. rewrite (bind_run _ _ _ _ _ (read_run r s3 d3 Hd3)).
    rewrite Hcontents3. cbn [contents_toString to_string]. rewrite bind_pure.
    exact Hw4. }
  rewrite (bind_run _ _ _ _ _ Hrelink).
  eexists _, _. split; [reflexivity|].
  cbn [files heap done_calls set_files set_heap to_string].
  split; [rewrite Hf3; reflexivity|]. split; [exact Hc3|].
  split; [exact Hd4|]. rewrite prop_set. exact Hpath3.
Qed.

End Pages.

Lemma page_moves_to_its_directory_witness :
  exists s' d',
    process stand_in (plugin stand_in OptionsNone) 0 "about.html"
      (site root_site root_documents) = (Val tt, s') /\
    files s' = Obj.set "about/index.html" 0 (Obj.delete "about.html" root_site) /\
    done_calls s' = [] /\
    heap s' !! 0 = Some d' /\
    prop "path" d' = VString "about/index.html".
Proof.
  apply (page_moves_to_its_directory stand_in (plugin stand_in OptionsNone) 0
           "about.html" (site root_site root_documents) 0 (document "about" [])
           "about"); first [reflexivity|exact I].
Defined.
